(** * Huddle01 examples: the real-time audio pipeline

    A shallow embedding of the three stateful pieces of the Python
    examples and the properties established about them:

    - [transcribe.AudioProcessor]   (python/conferencing/transcribe.py),
      the byte accumulator that cuts the inbound audio into fixed windows;
    - [bot_audio_track.BotAudioTrack]
      (python/conferencing/custom/bot_audio_track.py), the FIFO backed
      media track that paces the synthesized audio;
    - [open_ai.OpenBot._handle_message] (python/chatbot/open_ai.py), the
      inbound dispatcher of the realtime voice session.

    Python objects are records, methods are functions that take the
    receiver and return the new receiver; code that logs or raises runs in
    a small state-and-exception monad. *)

From Equations Require Import Equations.
From Stdlib.Strings Require Import Byte Ascii String.
From Stdlib Require QArith_base DecimalString DecimalZ.
From Stdlib Require Import Arith NArith ZArith Lia Bool List.
Import ListNotations.

Set Implicit Arguments.
Set Warnings "-abstract-large-number,-register-all".

(* ===================================================================== *)
(** * Part I: the embedding                                               *)
(* ===================================================================== *)

(** ** transcribe.py: [AudioProcessor] *)

Module transcribe.

(** Python [bytes] / [bytearray]. *)
Definition bytes := list byte.

(** Class attributes of [AudioProcessor]. *)
Definition MAX_CHUNK_SIZE : nat := 25600.
Definition PREFERRED_CHUNK_SIZE : nat := 24576.

Lemma PREFERRED_CHUNK_SIZE_pos : 0 < PREFERRED_CHUNK_SIZE.
Proof. apply Nat.ltb_lt. vm_compute. reflexivity. Qed.

(** [self.buffer = bytearray()] is the only instance attribute. *)
Record AudioProcessor : Type := mkAudioProcessor { buffer : bytes }.

(** [AudioProcessor.__init__]. *)
Definition __init__ : AudioProcessor := {| buffer := [] |}.

Section ChunkLoop.

(** The window size read by the loop; the loop only makes progress because
    it is positive. *)
Variable size : nat.
Hypothesis size_pos : 0 < size.

(** The [while len(self.buffer) >= size] loop of [add_audio], on the two
    variables it updates: the local list [chunks] and [self.buffer].
    One iteration appends the slice [buffer[:size]] to [chunks] and
    rebinds the buffer to [buffer[size:]]. *)
Equations? chunk_loop (chunks : list bytes) (buf : bytes) : list bytes * bytes
  by wf (length buf) lt :=
  chunk_loop chunks buf with le_lt_dec size (length buf) => {
    | left _ := chunk_loop (chunks ++ [firstn size buf]) (skipn size buf);
    | right _ := (chunks, buf) }.
Proof. rewrite length_skipn. lia. Qed.

End ChunkLoop.

(** [AudioProcessor.add_audio]: extend the buffer, run the loop from an
    empty [chunks] list, return the chunks; the second component is the
    receiver after the call. *)
Definition add_audio (self : AudioProcessor) (audio_data : bytes)
  : list bytes * AudioProcessor :=
  let extended := buffer self ++ audio_data in
  let '(chunks, rest) :=
    chunk_loop PREFERRED_CHUNK_SIZE_pos [] extended in
  (chunks, {| buffer := rest |}).

(** [AudioProcessor.get_remaining]: [bytes(self.buffer)] when the buffer is
    truthy (non-empty), [None] otherwise.  The receiver is returned too, so
    that the absence of an effect is a statement about the function. *)
Definition get_remaining (self : AudioProcessor)
  : option bytes * AudioProcessor :=
  match buffer self with
  | [] => (None, self)
  | _ :: _ => (Some (buffer self), self)
  end.

(** A run of [add_audio] calls: every chunk emitted, in emission order,
    and the receiver after the last call. *)
Fixpoint add_audio_all (self : AudioProcessor) (inputs : list bytes)
  : list bytes * AudioProcessor :=
  match inputs with
  | [] => ([], self)
  | a :: rest =>
      let '(chunks, self') := add_audio self a in
      let '(more, self'') := add_audio_all self' rest in
      (chunks ++ more, self'')
  end.

(** The bytes a caller gets out of an [Optional[bytes]]: [None] carries
    none. *)
Definition bytes_of (r : option bytes) : bytes :=
  match r with Some b => b | None => [] end.

End transcribe.

(** ** The Python runtime the two other modules run in *)

Module py.

(** The exception classes that the modelled code and its libraries raise.
    All of them derive from [Exception], so an [except Exception] clause
    catches every one. *)
Inductive PyExc : Type :=
| ValueError          (* also numpy's and PyAV's argument errors *)
| TypeError
| AttributeError
| binascii_Error      (* a subclass of ValueError *)
| JSONDecodeError     (* a subclass of ValueError *)
| KeyError
| Exception_          (* a bare [Exception("...")] *)
| MediaStreamError.   (* aiortc.mediastreams *)

(** The outcome of a library call that has no state. *)
Inductive PyResult (A : Type) : Type :=
| Ok (a : A)
| Raise (e : PyExc).
Arguments Ok {A} a.
Arguments Raise {A} e.

(** The [logging] module: the level and the constant head of the message;
    the interpolated payload is not kept, the exception object is. *)
Inductive Level : Type := DEBUG | INFO | ERROR.

Record LogRecord : Type := mkLog {
  levelname : Level;
  msg : string;
  exc_info : option PyExc
}.

(** The store of a computation: the receiver object and the log written so
    far (newest record last). *)
Record World (S : Type) : Type := mkWorld {
  obj : S;
  log : list LogRecord
}.

(** A call either returns a value or raises; the store survives both. *)
Inductive Outcome (S A : Type) : Type :=
| Returned (a : A) (w : World S)
| Raised (e : PyExc) (w : World S).
Arguments Returned {S A} a w.
Arguments Raised {S A} e w.

Definition M (S A : Type) : Type := World S -> Outcome S A.

Definition ret {S A} (a : A) : M S A := fun w => Returned a w.

Definition bind {S A B} (m : M S A) (k : A -> M S B) : M S B :=
  fun w =>
    match m w with
    | Returned a w' => k a w'
    | Raised e w' => Raised e w'
    end.

(** [raise e]. *)
Definition raise {S A} (e : PyExc) : M S A := fun w => Raised e w.

(** [try: body / except Exception as e: handler e]. *)
Definition try_except {S A} (body : M S A) (handler : PyExc -> M S A)
  : M S A :=
  fun w =>
    match body w with
    | Returned a w' => Returned a w'
    | Raised e w' => handler e w'
    end.

Definition get {S} : M S S := fun w => Returned (obj w) w.

Definition put {S} (s : S) : M S unit :=
  fun w => Returned tt {| obj := s; log := log w |}.

Definition modify {S} (f : S -> S) : M S unit :=
  fun w => Returned tt {| obj := f (obj w); log := log w |}.

(** [logger.<level>(msg)], with the exception when one is interpolated. *)
Definition logger {S} (l : Level) (m : string) (e : option PyExc)
  : M S unit :=
  fun w =>
    Returned tt {| obj := obj w;
                   log := log w ++ [ {| levelname := l; msg := m;
                                        exc_info := e |} ] |}.

(** A stateless library call inside a computation. *)
Definition lift {S A} (r : PyResult A) : M S A :=
  fun w => match r with Ok a => Returned a w | Raise e => Raised e w end.

(** A method call on the attribute selected by [proj]/[inj]: the attribute
    is read, the method runs on it, the attribute's new state is stored
    back - also when the method raises. *)
Definition zoom {S T A} (proj : S -> T) (inj : S -> T -> S) (m : M T A)
  : M S A :=
  fun w =>
    match m {| obj := proj (obj w); log := log w |} with
    | Returned a w' =>
        Returned a {| obj := inj (obj w) (obj w'); log := log w' |}
    | Raised e w' =>
        Raised e {| obj := inj (obj w) (obj w'); log := log w' |}
    end.

Definition bind_result {A B} (r : PyResult A) (k : A -> PyResult B)
  : PyResult B :=
  match r with Ok a => k a | Raise e => Raise e end.

(** The values [json.loads] produces, which is also what reaches a handler
    as a field of a message: a Python object with its dynamic type.  A
    [dict] is its items in order, keys unique. *)
Inductive object : Type :=
| PyNone
| PyBool (b : bool)
| PyInt (n : Z)
| PyStr (s : string)
| PyList (items : list object)
| PyDict (items : list (string * object)).

(** Truth value of an object, as tested by [if x:]. *)
Definition truthy (v : object) : bool :=
  match v with
  | PyNone => false
  | PyBool b => b
  | PyInt n => negb (n =? 0)%Z
  | PyStr s => negb (String.eqb s EmptyString)
  | PyList items => negb (Nat.eqb (length items) 0)
  | PyDict items => negb (Nat.eqb (length items) 0)
  end.

Declare Scope py_scope.
Delimit Scope py_scope with py.

Notation "'let*' x ':=' m 'in' k" := (bind m (fun x => k))
  (at level 10, x name, m at level 100, k at level 200) : py_scope.
Notation "m ';;' k" := (bind m (fun _ => k))
  (at level 100, right associativity) : py_scope.

End py.

(** ** The libraries [bot_audio_track.py] calls *)

(** *** [base64.b64decode] (CPython, [validate=False]) *)

Module base64.
Import py.

(** [binascii]'s decoding table: the value of a character of the
    alphabet, [None] for every other character. *)
Definition table_a2b_base64 (c : ascii) : option N :=
  let n := N_of_ascii c in
  if ((65 <=? n) && (n <=? 90))%N then Some (n - 65)%N            (* A-Z *)
  else if ((97 <=? n) && (n <=? 122))%N then Some (n - 71)%N      (* a-z *)
  else if ((48 <=? n) && (n <=? 57))%N then Some (n + 4)%N        (* 0-9 *)
  else if (n =? 43)%N then Some 62%N                              (* + *)
  else if (n =? 47)%N then Some 63%N                              (* / *)
  else None.

Definition BASE64_PAD : ascii := "="%char.

Definition uchar (n : N) : byte := byte_of_ascii (ascii_of_N (n mod 256)).

(** The scanning loop of [binascii.a2b_base64] in its lenient mode, on the
    rest of the input and its four loop variables.  Characters outside the
    alphabet are skipped; a pad sequence that completes a quad ends the
    scan ([goto done]); input that ends inside a quad is an error. *)
Fixpoint a2b_loop (ascii_data : string) (quad_pos : nat) (leftchar : N)
  (pads : nat) (bin_data : list byte) : PyResult (list byte) :=
  match ascii_data with
  | EmptyString =>
      match quad_pos with
      | 0 => Ok bin_data
      | _ => Raise binascii_Error
      end
  | String this_ch rest =>
      if Ascii.eqb this_ch BASE64_PAD then
        if 2 <=? quad_pos then
          if 4 <=? quad_pos + S pads then Ok bin_data
          else a2b_loop rest quad_pos leftchar (S pads) bin_data
        else a2b_loop rest quad_pos leftchar pads bin_data
      else
        match table_a2b_base64 this_ch with
        | None => a2b_loop rest quad_pos leftchar pads bin_data
        | Some v =>
            match quad_pos with
            | 0 => a2b_loop rest 1 v 0 bin_data
            | 1 => a2b_loop rest 2 (N.land v 15) 0
                     (bin_data ++
                      [uchar (N.lor (N.shiftl leftchar 2) (N.shiftr v 4))])
            | 2 => a2b_loop rest 3 (N.land v 3) 0
                     (bin_data ++
                      [uchar (N.lor (N.shiftl leftchar 4) (N.shiftr v 2))])
            | _ => a2b_loop rest 0 0%N 0
                     (bin_data ++ [uchar (N.lor (N.shiftl leftchar 6) v)])
            end
        end
  end.

Definition a2b_base64 (data : string) : PyResult (list byte) :=
  a2b_loop data 0 0%N 0 [].

(** [s.encode('ascii')]: a Python [str] is modelled by a [string] whose
    characters above 127 stand for the non-ASCII code points. *)
Fixpoint is_ascii (s : string) : bool :=
  match s with
  | EmptyString => true
  | String c rest => (N_of_ascii c <? 128)%N && is_ascii rest
  end.

(** [base64.b64decode(s)]: a [str] is encoded to ASCII and decoded; an
    object that is neither [str] nor bytes-like is a [TypeError]. *)
Definition b64decode (s : object) : PyResult (list byte) :=
  match s with
  | PyStr s => if is_ascii s then a2b_base64 s else Raise ValueError
  | _ => Raise TypeError
  end.

End base64.

(** *** [numpy]: the int16 view of a buffer and [reshape] *)

Module np.
Import py.

(** One little-endian signed 16-bit sample. *)
Definition int16_le (lo hi : byte) : Z :=
  let u := (Z.of_N (Byte.to_N lo) + 256 * Z.of_N (Byte.to_N hi))%Z in
  if (u <? 32768)%Z then u else (u - 65536)%Z.

(** [np.frombuffer(b, dtype=np.int16)]: the buffer size must be a multiple
    of the element size. *)
Fixpoint frombuffer (b : list byte) : PyResult (list Z) :=
  match b with
  | [] => Ok []
  | [_] => Raise ValueError
  | lo :: hi :: rest =>
      bind_result (frombuffer rest) (fun a => Ok (int16_le lo hi :: a))
  end.

(** Row [cols] by [cols] split of a flat array. *)
Fixpoint rows_of (rows cols : nat) (a : list Z) : list (list Z) :=
  match rows with
  | 0 => []
  | S r => firstn cols a :: rows_of r cols (skipn cols a)
  end.

(** [a.reshape(rows, -1)]: the size must divide evenly. *)
Definition reshape (rows : nat) (a : list Z) : PyResult (list (list Z)) :=
  match rows with
  | 0 => Raise ValueError
  | S _ =>
      if length a mod rows =? 0
      then Ok (rows_of rows (length a / rows) a)
      else Raise ValueError
  end.

(** [np.zeros(n, dtype=np.int16)]. *)
Definition zeros (n : nat) : list Z := repeat 0%Z n.

End np.

(** *** PyAV: [AudioFrame] and [AudioFifo] *)

Module av.
Import py.
Local Open Scope py_scope.

Inductive SampleFormat : Type := s16.            (* packed signed 16 bit *)
Inductive Layout : Type := mono | stereo.

Definition nb_channels (l : Layout) : nat :=
  match l with mono => 1 | stereo => 2 end.

Definition Layout_eqb (a b : Layout) : bool :=
  match a, b with
  | mono, mono | stereo, stereo => true
  | _, _ => false
  end.

(** A rational time base, numerator and denominator. *)
Definition Fraction : Type := (Z * Z)%type.

Definition Fraction_eqb (a b : Fraction) : bool :=
  ((fst a =? fst b) && (snd a =? snd b))%Z.

(** An audio frame in a packed format has one plane, which holds
    [samples * channels] interleaved samples. *)
Record AudioFrame : Type := mkAudioFrame {
  format : SampleFormat;
  layout : Layout;
  samples : nat;
  plane : list Z;
  sample_rate : Z;
  time_base : option Fraction;
  pts : option Z
}.

(** [AudioFrame(format=..., layout=..., samples=n)]: no rate, no time base,
    no timestamp yet. *)
Definition AudioFrame_new (f : SampleFormat) (l : Layout) (n : nat)
  : AudioFrame :=
  {| format := f; layout := l; samples := n;
     plane := repeat 0%Z (n * nb_channels l);
     sample_rate := 0; time_base := None; pts := None |}.

(** [plane.update(data)]: the data must fill the plane exactly. *)
Definition plane_update (fr : AudioFrame) (data : list Z)
  : PyResult AudioFrame :=
  if length data =? samples fr * nb_channels (layout fr)
  then Ok {| format := format fr; layout := layout fr;
             samples := samples fr; plane := data;
             sample_rate := sample_rate fr; time_base := time_base fr;
             pts := pts fr |}
  else Raise ValueError.

(** [AudioFrame.from_ndarray(array, format="s16", layout=l)]: a packed
    format wants a single row, which becomes the plane. *)
Definition from_ndarray (array : list (list Z)) (l : Layout)
  : PyResult AudioFrame :=
  match array with
  | [row] =>
      plane_update (AudioFrame_new s16 l (length row / nb_channels l)) row
  | _ => Raise ValueError
  end.

Definition set_sample_rate (fr : AudioFrame) (r : Z) : AudioFrame :=
  {| format := format fr; layout := layout fr; samples := samples fr;
     plane := plane fr; sample_rate := r; time_base := time_base fr;
     pts := pts fr |}.

Definition set_time_base (fr : AudioFrame) (tb : Fraction) : AudioFrame :=
  {| format := format fr; layout := layout fr; samples := samples fr;
     plane := plane fr; sample_rate := sample_rate fr;
     time_base := Some tb; pts := pts fr |}.

Definition set_pts (fr : AudioFrame) (p : Z) : AudioFrame :=
  {| format := format fr; layout := layout fr; samples := samples fr;
     plane := plane fr; sample_rate := sample_rate fr;
     time_base := time_base fr; pts := Some p |}.

(** The FIFO remembers the attributes of the first frame written
    ([template]) and queues interleaved samples. *)
Record AudioFifo : Type := mkAudioFifo {
  template : option AudioFrame;
  queue : list Z;
  samples_written : Z;
  samples_read : Z
}.

(** [AudioFifo()]. *)
Definition AudioFifo_new : AudioFifo :=
  {| template := None; queue := []; samples_written := 0;
     samples_read := 0 |}.

(** Number of whole samples queued ([av_audio_fifo_size]). *)
Definition fifo_size (f : AudioFifo) : nat :=
  match template f with
  | None => 0
  | Some t => length (queue f) / nb_channels (layout t)
  end.

Definition same_parameters (t fr : AudioFrame) : bool :=
  Layout_eqb (layout t) (layout fr)
  && (sample_rate t =? sample_rate fr)%Z
  && match time_base t, time_base fr with
     | Some a, Some b => Fraction_eqb a b
     | _, _ => true
     end.

(** Timestamps per sample of a FIFO whose first frame had time base [tb]
    and rate [r]; it is 1 for the time base [1/r] used here, and 0 switches
    the timestamp bookkeeping off. *)
Definition pts_per_sample (t : AudioFrame) : Z :=
  match time_base t with
  | Some (num, den) =>
      if ((num =? 0) || (sample_rate t =? 0))%Z then 0%Z
      else (den / (num * sample_rate t))%Z
  | None => 0%Z
  end.

(** [AudioFifo.write(frame)]: an empty frame is ignored; the first frame
    fixes the template; a later frame must match it; a frame that carries
    a timestamp must continue the stream. *)
Definition AudioFifo_write (fr : AudioFrame) : M AudioFifo unit :=
  let* f := get in
  if samples fr =? 0 then ret tt
  else
    let* t :=
      match template f with
      | None =>
          put {| template := Some fr; queue := queue f;
                 samples_written := samples_written f;
                 samples_read := samples_read f |} ;;
          ret fr
      | Some t =>
          if same_parameters t fr then ret t else raise ValueError
      end in
    let* f := get in
    (match pts fr with
     | Some p =>
         if negb (pts_per_sample t =? 0)%Z
            && negb (p =? pts_per_sample t * samples_written f)%Z
         then raise ValueError else ret tt
     | None => ret tt
     end) ;;
    put {| template := template f; queue := queue f ++ plane fr;
           samples_written := (samples_written f + Z.of_nat (samples fr))%Z;
           samples_read := samples_read f |}.

(** [AudioFifo.read(samples)] with [partial=False]: [None] when nothing was
    ever written, when the queue is empty, or when fewer than [samples]
    samples are queued; [0] asks for everything. *)
Definition AudioFifo_read (n : nat) : M AudioFifo (option AudioFrame) :=
  let* f := get in
  match template f with
  | None => ret None
  | Some t =>
      let buffered_samples := fifo_size f in
      if buffered_samples <? 1 then ret None
      else
        let n := if n =? 0 then buffered_samples else n in
        if buffered_samples <? n then ret None
        else
          let width := n * nb_channels (layout t) in
          let fr :=
            {| format := format t; layout := layout t; samples := n;
               plane := firstn width (queue f);
               sample_rate := sample_rate t; time_base := time_base t;
               pts := if (pts_per_sample t =? 0)%Z then None
                      else Some (pts_per_sample t * samples_read f)%Z |} in
          put {| template := template f; queue := skipn width (queue f);
                 samples_written := samples_written f;
                 samples_read := (samples_read f + Z.of_nat n)%Z |} ;;
          ret (Some fr)
  end.

End av.

(** ** bot_audio_track.py: [BotAudioTrack] *)

Module bot_audio_track.
Import py.
Local Open Scope py_scope.
Local Open Scope string_scope.

(** [MediaStreamTrack.readyState] is ["live"] until [stop()], then
    ["ended"]. *)
Inductive ReadyState : Type := live | ended.

Definition is_live (r : ReadyState) : bool :=
  match r with live => true | ended => false end.

(** A reading of the event loop's clock, in seconds. *)
Definition Time : Type := QArith_base.Q.

(** Audio configuration: set once by [__init__] and never reassigned.
    [frame_samples] is [int(AUDIO_PTIME * sample_rate)] with
    [AUDIO_PTIME = 0.020]. *)
Definition sample_rate : Z := 24000.
Definition channels : nat := 1.
Definition sample_width : nat := 2.
Definition frame_samples : nat := 480.

(** ["mono" if self.channels == 1 else "stereo"]. *)
Definition track_layout : av.Layout :=
  if Nat.eqb channels 1 then av.mono else av.stereo.

(** [fractions.Fraction(1, self.sample_rate)]. *)
Definition track_time_base : av.Fraction := (1%Z, sample_rate).

(** The mutable attributes of a track. *)
Record BotAudioTrack : Type := mkBotAudioTrack {
  readyState : ReadyState;
  _start : option Time;
  _timestamp : Z;
  audio_fifo : av.AudioFifo
}.

(** [BotAudioTrack.__init__]. *)
Definition __init__ : BotAudioTrack :=
  {| readyState := live; _start := None; _timestamp := 0;
     audio_fifo := av.AudioFifo_new |}.

Definition set_audio_fifo (self : BotAudioTrack) (f : av.AudioFifo)
  : BotAudioTrack :=
  {| readyState := readyState self; _start := _start self;
     _timestamp := _timestamp self; audio_fifo := f |}.

Definition set_clock (self : BotAudioTrack) (start : option Time) (ts : Z)
  : BotAudioTrack :=
  {| readyState := readyState self; _start := start; _timestamp := ts;
     audio_fifo := audio_fifo self |}.

(** A method of [self.audio_fifo], called under [self.fifo_lock]. *)
Definition with_fifo {A} (m : M av.AudioFifo A) : M BotAudioTrack A :=
  zoom audio_fifo set_audio_fifo m.

(** Lines 42-52 of [enqueue_audio]: from the base64 text to the frame that
    is written. *)
Definition decode_frame (base64_audio : object) : PyResult av.AudioFrame :=
  bind_result (base64.b64decode base64_audio) (fun audio_bytes =>
  bind_result (np.frombuffer audio_bytes) (fun audio_array =>
  bind_result (np.reshape channels audio_array) (fun audio_array =>
  bind_result (av.from_ndarray audio_array track_layout) (fun frame =>
  Ok (av.set_time_base (av.set_sample_rate frame sample_rate)
        track_time_base))))).

(** [BotAudioTrack.enqueue_audio]. *)
Definition enqueue_audio (base64_audio : object) : M BotAudioTrack unit :=
  let* self := get in
  if negb (is_live (readyState self)) then ret tt
  else
    try_except
      (let* frame := lift (decode_frame base64_audio) in
       with_fifo (av.AudioFifo_write frame))
      (fun e => logger ERROR "Error in enqueue_audio: " (Some e)).

(** [BotAudioTrack.flush_audio]. *)
Definition flush_audio : M BotAudioTrack unit :=
  modify (fun self => set_audio_fifo self av.AudioFifo_new).

Section Recv.

(** The [read] method of the FIFO object, as [recv] sees it: a call that
    returns a frame or [None], or raises.  [av.AudioFifo_read] is the
    library's. *)
Variable fifo_read : nat -> M av.AudioFifo (option av.AudioFrame).

(** [BotAudioTrack.recv].  [now] is the clock reading taken when the first
    call starts the schedule.  The wait until
    [_start + _timestamp / sample_rate] only delays the call and is not
    part of the state. *)
Definition recv (now : Time) : M BotAudioTrack av.AudioFrame :=
  let* self := get in
  if negb (is_live (readyState self)) then raise MediaStreamError
  else
    (match _start self with
     | None => modify (fun self => set_clock self (Some now) 0)
     | Some _ => ret tt
     end) ;;
    let samples := frame_samples in
    modify (fun self =>
              set_clock self (_start self)
                (_timestamp self + Z.of_nat samples)) ;;
    try_except
      (let* frame := with_fifo (fifo_read samples) in
       let* frame :=
         match frame with
         | None =>
             let frame := av.AudioFrame_new av.s16 track_layout samples in
             let* frame := lift (av.plane_update frame (np.zeros samples)) in
             ret (av.set_time_base (av.set_sample_rate frame sample_rate)
                    track_time_base)
         | Some frame =>
             ret (av.set_time_base (av.set_sample_rate frame sample_rate)
                    track_time_base)
         end in
       let* self := get in
       ret (av.set_pts frame (_timestamp self)))
      (fun e =>
         logger ERROR "Error in recv: " (Some e) ;;
         raise MediaStreamError).

End Recv.

(** [BotAudioTrack.stop]. *)
Definition stop : M BotAudioTrack unit :=
  let* self := get in
  if is_live (readyState self)
  then put {| readyState := ended; _start := _start self;
              _timestamp := _timestamp self;
              audio_fifo := audio_fifo self |}
  else ret tt.

(** *** Notions used to state what [recv] does *)

(** The frame that pads an underrun, before [recv] sets its rate, time base
    and timestamp: [n] zero samples. *)
Definition silence (n : nat) : av.AudioFrame :=
  {| av.format := av.s16; av.layout := av.mono; av.samples := n;
     av.plane := repeat 0%Z n; av.sample_rate := 0;
     av.time_base := None; av.pts := None |}.

(** The track after the clock update at the head of [recv]. *)
Definition ticked (self : BotAudioTrack) (now : Time) : BotAudioTrack :=
  match _start self with
  | None => set_clock self (Some now) (0 + Z.of_nat frame_samples)
  | Some _ =>
      set_clock self (_start self)
        (_timestamp self + Z.of_nat frame_samples)
  end.

(** What [recv] makes of the frame that [read] returned. *)
Definition stamped (r : option av.AudioFrame) (ts : Z) : av.AudioFrame :=
  av.set_pts
    (av.set_time_base
       (av.set_sample_rate
          (match r with Some fr => fr | None => silence frame_samples end)
          sample_rate)
       track_time_base)
    ts.

(** The store [read] is called in: the FIFO of the track, the log as it
    is. *)
Definition read_world (w : World BotAudioTrack) : World av.AudioFifo :=
  {| obj := audio_fifo (obj w); log := log w |}.

(** The timestamp the next frame is counted from. *)
Definition base_timestamp (self : BotAudioTrack) : Z :=
  match _start self with None => 0%Z | Some _ => _timestamp self end.

(** The calls a live track receives from its two users: the session
    writes and flushes, the transport pulls frames. *)
Inductive Call : Type :=
| call_enqueue_audio (base64_audio : object)
| call_flush_audio
| call_recv (now : Time).

(** A sequence of calls on a track whose FIFO is PyAV's; the result is the
    list of frames the [recv] calls returned, in order. *)
Fixpoint run (calls : list Call) : M BotAudioTrack (list av.AudioFrame) :=
  match calls with
  | [] => ret []
  | call_enqueue_audio a :: rest => enqueue_audio a ;; run rest
  | call_flush_audio :: rest => flush_audio ;; run rest
  | call_recv now :: rest =>
      let* frame := recv av.AudioFifo_read now in
      let* frames := run rest in
      ret (frame :: frames)
  end.

Definition is_recv (c : Call) : bool :=
  match c with call_recv _ => true | _ => false end.

End bot_audio_track.

(** ** open_ai.py: the inbound side of [OpenBot] *)

Module open_ai.
Import py.
Local Open Scope py_scope.
Local Open Scope string_scope.

(** The discriminators of the realtime service. *)
Module ResponseMessageTypes.
Definition sessionCreated := "session.created".
Definition sessionUpdated := "session.updated".
Definition responseCreated := "response.created".
Definition responseDone := "response.done".
Definition responseAudioDone := "response.audio.done".
Definition responseAudioDelta := "response.audio.delta".
Definition responseAudioTranscriptDelta := "response.audio_transcript.delta".
Definition rateLimitUpdated := "rate_limit.updated".
Definition inputAudioBufferSpeechStarted := "input_audio_buffer.speech_started".
Definition inputAudioBufferSpeechStopped := "input_audio_buffer.speech_stopped".
Definition error := "error".
End ResponseMessageTypes.

(** A [Dict[str, ...]]: its items. *)
Definition Dict (V : Type) : Type := list (string * V).

(** [d.get(key)], [None] when the key is absent. *)
Fixpoint dict_get {V} (d : Dict V) (key : string) : option V :=
  match d with
  | [] => None
  | (k, v) :: rest => if String.eqb k key then Some v else dict_get rest key
  end.

(** The attributes of an [OpenBot] that the inbound side can reach:
    whether the socket is connected, the outbound chunk counter and the
    playback track. *)
Record OpenBot : Type := mkOpenBot {
  ws_connected : bool;
  chunk_number : Z;
  audio_track : bot_audio_track.BotAudioTrack
}.

Definition set_audio_track (self : OpenBot)
  (t : bot_audio_track.BotAudioTrack) : OpenBot :=
  {| ws_connected := ws_connected self; chunk_number := chunk_number self;
     audio_track := t |}.

(** A method of [self.audio_track]. *)
Definition on_track {A} (m : M bot_audio_track.BotAudioTrack A)
  : M OpenBot A :=
  zoom audio_track set_audio_track m.

(** [message_data.get("delta")]: an absent key reads as [None]. *)
Definition get_or_None (d : Dict object) (key : string) : object :=
  match dict_get d key with Some v => v | None => PyNone end.

Definition _handle_session_created (message_data : Dict object)
  : M OpenBot unit :=
  logger INFO "New Session created:" None.

Definition _handle_audio_delta (message_data : Dict object)
  : M OpenBot unit :=
  let base64_audio := get_or_None message_data "delta" in
  if truthy base64_audio
  then on_track (bot_audio_track.enqueue_audio base64_audio)
  else ret tt.

Definition _handle_audio_transcript_delta (message_data : Dict object)
  : M OpenBot unit :=
  ret tt.

Definition _handle_session_updated (message_data : Dict object)
  : M OpenBot unit :=
  logger INFO "Session updated: " None.

Definition _handle_response_created (message_data : Dict object)
  : M OpenBot unit :=
  logger INFO "Response created: " None.

Definition _handle_response_done (message_data : Dict object)
  : M OpenBot unit :=
  logger INFO "Response done: " None.

Definition _handle_audio_done (message_data : Dict object)
  : M OpenBot unit :=
  logger INFO "Response audio done: " None.

Definition _handle_rate_limit (message_data : Dict object)
  : M OpenBot unit :=
  logger INFO "Rate limit updated: " None.

Definition _handle_error (message_data : Dict object) : M OpenBot unit :=
  logger ERROR "Error: " None.

Definition _handle_audio_buffer_speech_started (message_data : Dict object)
  : M OpenBot unit :=
  logger INFO "Speech Started: " None ;;
  try_except
    (on_track bot_audio_track.flush_audio)
    (fun e => logger ERROR "Error starting audio track: " (Some e)).

Definition _handle_audio_buffer_speech_stopped (message_data : Dict object)
  : M OpenBot unit :=
  logger INFO "Speech Stopped: " None.

(** The [handlers] table of [_handle_message], entry by entry. *)
Definition handlers : Dict (Dict object -> M OpenBot unit) :=
  [ (ResponseMessageTypes.sessionCreated, _handle_session_created);
    (ResponseMessageTypes.responseAudioDelta, _handle_audio_delta);
    (ResponseMessageTypes.responseAudioTranscriptDelta,
       _handle_audio_transcript_delta);
    (ResponseMessageTypes.sessionUpdated, _handle_session_updated);
    (ResponseMessageTypes.responseCreated, _handle_response_created);
    (ResponseMessageTypes.responseDone, _handle_response_done);
    (ResponseMessageTypes.responseAudioDone, _handle_audio_done);
    (ResponseMessageTypes.rateLimitUpdated, _handle_rate_limit);
    (ResponseMessageTypes.inputAudioBufferSpeechStarted,
       _handle_audio_buffer_speech_started);
    (ResponseMessageTypes.inputAudioBufferSpeechStopped,
       _handle_audio_delta);
    (ResponseMessageTypes.error, _handle_audio_buffer_speech_stopped) ].

(** [message_data.get("type", "unknown")]; only a [dict] has [get]. *)
Definition get_type (message_data : object) : PyResult object :=
  match message_data with
  | PyDict items =>
      Ok (match dict_get items "type" with
          | Some t => t
          | None => PyStr "unknown"
          end)
  | _ => Raise AttributeError
  end.

(** [handlers.get(message_type)]: a string is looked up, a list or a dict
    is unhashable, any other object equals no key. *)
Definition handlers_get (message_type : object)
  : PyResult (option (Dict object -> M OpenBot unit)) :=
  match message_type with
  | PyStr s => Ok (dict_get handlers s)
  | PyList _ | PyDict _ => Raise TypeError
  | _ => Ok None
  end.

Definition items_of (message_data : object) : Dict object :=
  match message_data with PyDict items => items | _ => [] end.

(** [OpenBot._handle_message].  The argument is the message as
    [json.loads] reads it: a decoded object, or the error it raises. *)
Definition _handle_message (message : PyResult object) : M OpenBot unit :=
  try_except
    (let* message_data := lift message in
     let* message_type := lift (get_type message_data) in
     logger DEBUG "Received message of type: " None ;;
     let* handler := lift (handlers_get message_type) in
     match handler with
     | Some handler => handler (items_of message_data)
     | None => logger ERROR "Unhandled message type: " None
     end)
    (fun e =>
       match e with
       | JSONDecodeError =>
           logger ERROR "Failed to decode message: " (Some e)
       | KeyError =>
           logger ERROR "Missing required key in message: " (Some e)
       | _ =>
           logger ERROR "Unexpected error handling message: " (Some e) ;;
           logger ERROR "" (Some e)
       end).

(** The loop of [OpenBot._listen] over the messages the socket delivers. *)
Fixpoint listen_loop (messages : list (PyResult object)) : M OpenBot unit :=
  match messages with
  | [] => ret tt
  | message :: rest => _handle_message message ;; listen_loop rest
  end.

(** [OpenBot._listen]. *)
Definition _listen (messages : list (PyResult object)) : M OpenBot unit :=
  try_except
    (let* self := get in
     if negb (ws_connected self) then raise Exception_
     else listen_loop messages)
    (fun e =>
       logger ERROR "Error listening to WebSocket: " (Some e) ;;
       raise e).

(** [OpenBot.close]. *)
Definition close : M OpenBot unit := on_track bot_audio_track.stop.

(** The record [_handle_message] logs before it dispatches. *)
Definition debug_record : LogRecord :=
  {| levelname := DEBUG; msg := "Received message of type: ";
     exc_info := None |}.

End open_ai.

(** ** Concrete states and messages used in the examples *)

Module examples.
Import py.
Local Open Scope string_scope.

Definition t0 : bot_audio_track.Time := QArith_base.Qmake 0 1.
Definition t1 : bot_audio_track.Time := QArith_base.Qmake 1 50.

(** Two little-endian samples, 1 and 2, in base64, and the frame
    [enqueue_audio] makes of them. *)
Definition two_samples : object := PyStr "AQACAA==".

Definition two_samples_frame : av.AudioFrame :=
  {| av.format := av.s16; av.layout := av.mono; av.samples := 2;
     av.plane := [1%Z; 2%Z]; av.sample_rate := 24000;
     av.time_base := Some (1%Z, 24000%Z); av.pts := None |}.

(** A new track, and a track in the middle of a playback: two samples
    queued, the schedule running. *)
Definition new_track : World bot_audio_track.BotAudioTrack :=
  {| obj := bot_audio_track.__init__; log := [] |}.

Definition playing_track : bot_audio_track.BotAudioTrack :=
  {| bot_audio_track.readyState := bot_audio_track.live;
     bot_audio_track._start := Some t0;
     bot_audio_track._timestamp := 960;
     bot_audio_track.audio_fifo :=
       {| av.template := Some two_samples_frame; av.queue := [5%Z; 6%Z];
          av.samples_written := 962; av.samples_read := 960 |} |}.

(** A FIFO object whose [read] raises. *)
Definition failing_read (n : nat) : M av.AudioFifo (option av.AudioFrame) :=
  raise ValueError.

(** A run of calls with three [recv] among writes and a flush. *)
Definition three_ticks : list bot_audio_track.Call :=
  [ bot_audio_track.call_recv t0;
    bot_audio_track.call_enqueue_audio two_samples;
    bot_audio_track.call_recv t1;
    bot_audio_track.call_flush_audio;
    bot_audio_track.call_enqueue_audio (PyStr "not base64");
    bot_audio_track.call_recv t1 ].

Definition speech_started_envelope : open_ai.Dict object :=
  [ ("type", PyStr "input_audio_buffer.speech_started");
    ("audio_start_ms", PyInt 1200) ].

Definition audio_delta_envelope : open_ai.Dict object :=
  [ ("type", PyStr "response.audio.delta"); ("delta", two_samples) ].

Definition speech_stopped_envelope : open_ai.Dict object :=
  [ ("type", PyStr "input_audio_buffer.speech_stopped");
    ("delta", two_samples) ].

(** A connected bot with a new track, one in the middle of a playback, and
    one after [close]. *)
Definition fresh_bot : World open_ai.OpenBot :=
  {| obj := {| open_ai.ws_connected := true; open_ai.chunk_number := 0;
               open_ai.audio_track := bot_audio_track.__init__ |};
     log := [] |}.

Definition playing_bot : World open_ai.OpenBot :=
  {| obj := {| open_ai.ws_connected := true; open_ai.chunk_number := 7;
               open_ai.audio_track := playing_track |};
     log := [] |}.

Definition closed_bot : World open_ai.OpenBot :=
  {| obj := {| open_ai.ws_connected := true; open_ai.chunk_number := 7;
               open_ai.audio_track :=
                 {| bot_audio_track.readyState := bot_audio_track.ended;
                    bot_audio_track._start := Some t0;
                    bot_audio_track._timestamp := 960;
                    bot_audio_track.audio_fifo := av.AudioFifo_new |} |};
     log := [] |}.

End examples.

(** ** The life of a track: any sequence of calls *)

Module bot_audio_track_life.
Import py bot_audio_track.

(** The store a call leaves behind, whether it returned or raised. *)
Definition world_of {S A} (o : Outcome S A) : World S :=
  match o with
  | Returned _ w => w
  | Raised _ w => w
  end.

(** The four methods of [BotAudioTrack] as calls; the FIFO is PyAV's. *)
Inductive Op : Type :=
| op_enqueue_audio (base64_audio : object)
| op_flush_audio
| op_recv (now : Time)
| op_stop.

Definition do_op (o : Op) (w : World BotAudioTrack) : World BotAudioTrack :=
  match o with
  | op_enqueue_audio a => world_of (enqueue_audio a w)
  | op_flush_audio => world_of (flush_audio w)
  | op_recv now => world_of (recv av.AudioFifo_read now w)
  | op_stop => world_of (stop w)
  end.

Definition do_ops (ops : list Op) (w : World BotAudioTrack)
  : World BotAudioTrack :=
  fold_left (fun w o => do_op o w) ops w.

(** The track as [BotAudioTrack()] makes it, nothing logged yet. *)
Definition born : World BotAudioTrack := {| obj := __init__; log := [] |}.

(** The FIFO of a track only ever sees frames made by [enqueue_audio]: its
    template, once fixed, has the track's layout, rate and time base, and
    its two counters differ by what is queued. *)
Definition fifo_ok (f : av.AudioFifo) : Prop :=
  match av.template f with
  | None => av.queue f = []
  | Some t =>
      av.layout t = av.mono
      /\ av.sample_rate t = sample_rate
      /\ av.time_base t = Some track_time_base
  end
  /\ (av.samples_written f - av.samples_read f
      = Z.of_nat (length (av.queue f)))%Z.

(** The FIFO after [write] accepted the frame [fr]. *)
Definition written (f : av.AudioFifo) (fr : av.AudioFrame) : av.AudioFifo :=
  if av.samples fr =? 0 then f
  else
    {| av.template :=
         Some (match av.template f with Some t => t | None => fr end);
       av.queue := av.queue f ++ av.plane fr;
       av.samples_written :=
         (av.samples_written f + Z.of_nat (av.samples fr))%Z;
       av.samples_read := av.samples_read f |}.

(** The frame [read n] takes off a FIFO that holds at least [n] samples,
    and the FIFO it leaves. *)
Definition head_frame (f : av.AudioFifo) (n : nat) : av.AudioFrame :=
  {| av.format := av.s16; av.layout := av.mono; av.samples := n;
     av.plane := firstn n (av.queue f); av.sample_rate := sample_rate;
     av.time_base := Some track_time_base;
     av.pts := Some (av.samples_read f) |}.

Definition behead (f : av.AudioFifo) (n : nat) : av.AudioFifo :=
  {| av.template := av.template f; av.queue := skipn n (av.queue f);
     av.samples_written := av.samples_written f;
     av.samples_read := (av.samples_read f + Z.of_nat n)%Z |}.

(** What [read] gives [recv] on such a FIFO. *)
Definition taken (f : av.AudioFifo) : option av.AudioFrame :=
  if frame_samples <=? length (av.queue f)
  then Some (head_frame f frame_samples) else None.

Definition left_over (f : av.AudioFifo) : av.AudioFifo :=
  if frame_samples <=? length (av.queue f)
  then behead f frame_samples else f.

(** [n] copies of a text. *)
Fixpoint times (n : nat) (s : string) : string :=
  match n with
  | 0 => EmptyString
  | S k => String.append s (times k s)
  end.

(** A payload of 486 samples (the six samples 1, 512, 3, 4, 1280, 6 over
    and over), more than a frame, and two calls that queue it after two
    loose samples. *)
Definition long_payload : object := PyStr (times 81 "AQAAAgMABAAABQYA").

Definition load_ops : list Op :=
  [ op_enqueue_audio examples.two_samples; op_enqueue_audio long_payload ].

End bot_audio_track_life.

(** ** The inbound side of a bot over many messages *)

Module open_ai_life.
Import py open_ai.
Local Open Scope string_scope.

(** The bot after the socket delivered the messages, one
    [_handle_message] after the other, whatever each of them did. *)
Definition handle_all (messages : list (PyResult object))
  (w : World OpenBot) : World OpenBot :=
  fold_left
    (fun w message =>
       bot_audio_track_life.world_of (_handle_message message w))
    messages w.

(** What no inbound message may touch: the connection, the outbound
    counter, and the state and clock of the track. *)
Definition session_kept (before after : OpenBot) : Prop :=
  ws_connected after = ws_connected before
  /\ chunk_number after = chunk_number before
  /\ bot_audio_track.readyState (audio_track after)
     = bot_audio_track.readyState (audio_track before)
  /\ bot_audio_track._start (audio_track after)
     = bot_audio_track._start (audio_track before)
  /\ bot_audio_track._timestamp (audio_track after)
     = bot_audio_track._timestamp (audio_track before).

(** The bot with the FIFO of its track replaced by a new one. *)
Definition flushed (self : OpenBot) : OpenBot :=
  set_audio_track self
    (bot_audio_track.set_audio_fifo (audio_track self) av.AudioFifo_new).

(** The three discriminators whose handlers reach the track. *)
Definition reaches_track (t : string) : Prop :=
  t = ResponseMessageTypes.inputAudioBufferSpeechStarted
  \/ t = ResponseMessageTypes.responseAudioDelta
  \/ t = ResponseMessageTypes.inputAudioBufferSpeechStopped.

(** Messages the dispatcher cannot place, and a delta without audio. *)
Definition stray_messages : list (PyResult object) :=
  [ Raise JSONDecodeError;
    Ok (PyList [PyInt 1]);
    Ok (PyDict [("type", PyList [])]);
    Ok (PyDict [("type", PyStr "conversation.item.created")]);
    Ok (PyDict [("event_id", PyStr "e1")]);
    Ok (PyDict [("type", PyInt 3)]) ].

Definition delta_without_audio : Dict object :=
  [ ("type", PyStr "response.audio.delta"); ("response_id", PyStr "r1") ].

End open_ai_life.

(** ** [base64.b64encode] and [str] of an integer *)

Module base64_encode.
Import py.
Local Open Scope string_scope.

(** [binascii]'s encoding table: the character of a six-bit value. *)
Definition table_b2a_base64 (v : N) : ascii :=
  if (v <? 26)%N then ascii_of_N (v + 65)            (* A-Z *)
  else if (v <? 52)%N then ascii_of_N (v + 71)       (* a-z *)
  else if (v <? 62)%N then ascii_of_N (v - 4)        (* 0-9 *)
  else if (v =? 62)%N then "+"%char
  else "/"%char.

(** The four six-bit values of a group of three bytes. *)
Definition sextet0 (a : byte) : N := N.shiftr (Byte.to_N a) 2.
Definition sextet1 (a b : byte) : N :=
  N.lor (N.shiftl (N.land (Byte.to_N a) 3) 4) (N.shiftr (Byte.to_N b) 4).
Definition sextet2 (b c : byte) : N :=
  N.lor (N.shiftl (N.land (Byte.to_N b) 15) 2) (N.shiftr (Byte.to_N c) 6).
Definition sextet3 (c : byte) : N := N.land (Byte.to_N c) 63.

(** [base64.b64encode(b).decode("utf-8")]: three bytes give four
    characters; a last group of one or two bytes is completed with zero
    bits and padded with ["="]. *)
Fixpoint b64encode (b : list byte) : string :=
  match b with
  | [] => EmptyString
  | [a] =>
      String (table_b2a_base64 (sextet0 a))
        (String (table_b2a_base64 (sextet1 a x00)) "==")
  | [a; b] =>
      String (table_b2a_base64 (sextet0 a))
        (String (table_b2a_base64 (sextet1 a b))
           (String (table_b2a_base64 (sextet2 b x00)) "="))
  | a :: b :: c :: rest =>
      String (table_b2a_base64 (sextet0 a))
        (String (table_b2a_base64 (sextet1 a b))
           (String (table_b2a_base64 (sextet2 b c))
              (String (table_b2a_base64 (sextet3 c)) (b64encode rest))))
  end.

(** [str(n)] for an [int]: its decimal digits, with a sign when
    negative. *)
Definition str (n : Z) : string :=
  DecimalString.NilEmpty.string_of_int (Z.to_int n).

(** The decoding table undoes the encoding table, on characters that are
    ASCII and not the pad. *)
Definition table_check (v : N) : bool :=
  match base64.table_a2b_base64 (table_b2a_base64 v) with
  | Some v' => (v' =? v)%N
  | None => false
  end
  && negb (Ascii.eqb (table_b2a_base64 v) base64.BASE64_PAD)
  && (N_of_ascii (table_b2a_base64 v) <? 128)%N.

(** What the decoder computes from the six-bit values of two neighbouring
    bytes [a] and [b]. *)
Definition pair_check (a b : byte) : bool :=
  (sextet0 a <? 64)%N && (sextet1 a b <? 64)%N
  && (sextet2 a b <? 64)%N && (sextet3 a <? 64)%N
  && (Byte.to_N
        (base64.uchar (N.lor (N.shiftl (sextet0 a) 2) (N.shiftr (sextet1 a b) 4)))
      =? Byte.to_N a)%N
  && (N.land (sextet1 a b) 15 =? N.shiftr (Byte.to_N b) 4)%N
  && (N.shiftr (sextet2 a b) 2 =? N.land (Byte.to_N a) 15)%N
  && (Byte.to_N
        (base64.uchar (N.lor (N.shiftl (N.shiftr (Byte.to_N a) 4) 4)
                  (N.land (Byte.to_N a) 15)))
      =? Byte.to_N a)%N
  && (Byte.to_N
        (base64.uchar (N.lor (N.shiftl (N.land (sextet2 a b) 3) 6) (sextet3 b)))
      =? Byte.to_N b)%N.

(** Every byte, in order. *)
Definition all_bytes : list byte :=
  map (fun n => match Byte.of_nat n with Some b => b | None => x00 end)
    (seq 0 256).

End base64_encode.

(** ** open_ai.py: the outbound side of [OpenBot] *)

Module open_ai_outbound.
Import py.
Local Open Scope py_scope.
Local Open Scope string_scope.

(** What is passed to [ws.send], before [json.dumps]: the session update,
    whose settings are the constants of the source, or one chunk of
    audio. *)
Inductive Envelope : Type :=
| session_update (event_id : string)
| input_audio_buffer_append (event_id : string) (audio : string).

(** A [websockets] client connection: whether it has been closed, and what
    it has been given to send, oldest first. *)
Record WebSocket : Type := mkWebSocket {
  ws_closed : bool;
  ws_sent : list Envelope
}.

(** [websockets.ConnectionClosed]; the code only ever catches it as an
    [Exception]. *)
Definition ConnectionClosed : PyExc := Exception_.

(** [ws.send(message)]: raises once the connection is closed. *)
Definition ws_send (message : Envelope) : M WebSocket unit :=
  let* conn := get in
  if ws_closed conn then raise ConnectionClosed
  else put {| ws_closed := false; ws_sent := ws_sent conn ++ [message] |}.

(** The attributes of an [OpenBot] that the outbound side uses. *)
Record OpenBot : Type := mkOpenBot {
  bot_id : string;
  __ws : option WebSocket;
  __chunk_number : Z
}.

(** [OpenBot.__init__], with the uuid it drew. *)
Definition __init__ (uuid : string) : OpenBot :=
  {| bot_id := uuid; __ws := None; __chunk_number := 0 |}.

Definition set_ws (self : OpenBot) (conn : option WebSocket) : OpenBot :=
  {| bot_id := bot_id self; __ws := conn;
     __chunk_number := __chunk_number self |}.

(** The property [OpenBot.ws]. *)
Definition ws : M OpenBot WebSocket :=
  let* self := get in
  match __ws self with
  | None => raise Exception_
  | Some conn => ret conn
  end.

(** A method of the connection [self.ws]: the property is read, then the
    method runs on the connection. *)
Definition on_ws {A} (m : M WebSocket A) : M OpenBot A :=
  let* conn := ws in
  zoom (fun _ => conn) (fun self conn' => set_ws self (Some conn')) m.

(** [OpenBot.__send_initial_message]. *)
Definition __send_initial_message : M OpenBot unit :=
  let* _ := ws in
  try_except
    (let* self := get in
     let event_id := "session_create_" ++ bot_id self in
     on_ws (ws_send (session_update event_id)) ;;
     logger INFO "Initial message sent, Context Set" None)
    (fun e =>
       logger ERROR "Error sending initial message: " (Some e) ;;
       raise e).

(** [OpenBot.connect].  [opened] is what [websockets.connect] gives: a new
    connection, which the peer may already have closed, or the error it
    raises.  The task that [connect] starts for [_listen] is the inbound
    side. *)
Definition connect (opened : PyResult bool) : M OpenBot unit :=
  try_except
    (let* closed := lift opened in
     modify (fun self =>
               set_ws self (Some {| ws_closed := closed; ws_sent := [] |})) ;;
     __send_initial_message)
    (fun e =>
       logger ERROR "Error connecting to WebSocket: " (Some e) ;;
       raise e).

(** [OpenBot.send_audio_chunks]. *)
Definition send_audio_chunks (audio_bytes : list byte) : M OpenBot unit :=
  try_except
    (let* _ := ws in
     let pcm_base64 := base64_encode.b64encode audio_bytes in
     let* self := get in
     let event_id :=
       "audio_chunk_" ++ bot_id self
         ++ base64_encode.str (__chunk_number self) in
     on_ws (ws_send (input_audio_buffer_append event_id pcm_base64)) ;;
     modify (fun self =>
               {| bot_id := bot_id self; __ws := __ws self;
                  __chunk_number := (__chunk_number self + 1)%Z |}))
    (fun e => logger ERROR "Error sending audio chunk: " (Some e)).

(** The peer, or the network, closes the connection. *)
Definition dropped (self : OpenBot) : OpenBot :=
  match __ws self with
  | Some conn =>
      set_ws self (Some {| ws_closed := true; ws_sent := ws_sent conn |})
  | None => self
  end.

(** What happens to the outbound side: calls of the two methods, and
    connections closing under it. *)
Inductive Event : Type :=
| ev_connect (opened : PyResult bool)
| ev_send_audio_chunks (audio_bytes : list byte)
| ev_connection_closes.

Definition after_event (e : Event) (w : World OpenBot) : World OpenBot :=
  match e with
  | ev_connect opened => bot_audio_track_life.world_of (connect opened w)
  | ev_send_audio_chunks b =>
      bot_audio_track_life.world_of (send_audio_chunks b w)
  | ev_connection_closes => {| obj := dropped (obj w); log := log w |}
  end.

Definition after_events (events : list Event) (w : World OpenBot)
  : World OpenBot :=
  fold_left (fun w e => after_event e w) events w.

(** What the current connection has been given to send. *)
Definition outbox (self : OpenBot) : list Envelope :=
  match __ws self with Some conn => ws_sent conn | None => [] end.

(** The envelope of chunk number [n]. *)
Definition audio_envelope (self : OpenBot) (n : Z) (audio_bytes : list byte)
  : Envelope :=
  input_audio_buffer_append
    ("audio_chunk_" ++ bot_id self ++ base64_encode.str n)
    (base64_encode.b64encode audio_bytes).

(** The envelopes of consecutive chunks, from number [n] on. *)
Fixpoint audio_envelopes (self : OpenBot) (n : Z)
  (chunks : list (list byte)) : list Envelope :=
  match chunks with
  | [] => []
  | b :: rest => audio_envelope self n b :: audio_envelopes self (n + 1) rest
  end.

Definition event_id_of (e : Envelope) : string :=
  match e with
  | session_update i => i
  | input_audio_buffer_append i _ => i
  end.

Definition is_session_update (e : Envelope) : bool :=
  match e with session_update _ => true | _ => false end.

(** Whether the bot holds a connection that is still open. *)
Definition can_send (self : OpenBot) : bool :=
  match __ws self with
  | Some conn => negb (ws_closed conn)
  | None => false
  end.

Definition send_error (e : PyExc) : LogRecord :=
  {| levelname := ERROR; msg := "Error sending audio chunk: ";
     exc_info := Some e |}.

(** What holds of the bot whatever happened to it since [__init__]. *)
Definition outbound_ok (uuid : string) (self : OpenBot) : Prop :=
  bot_id self = uuid
  /\ match __ws self with
     | None => True
     | Some conn =>
         (ws_sent conn = [] /\ ws_closed conn = true)
         \/ exists n chunks,
              ws_sent conn
              = session_update ("session_create_" ++ uuid)
                  :: audio_envelopes self n chunks
              /\ __chunk_number self = (n + Z.of_nat (length chunks))%Z
     end.

(** A bot with an open connection that has carried the session update and
    three chunks. *)
Definition streaming_bot : World OpenBot :=
  {| obj := {| bot_id := "b0";
               __ws := Some {| ws_closed := false;
                               ws_sent := [session_update "session_create_b0"] |};
               __chunk_number := 3 |};
     log := [] |}.

End open_ai_outbound.

(** ** transciption.py and sound_device.py: base64 audio in and out *)

Module transciption.
Import py.
Local Open Scope py_scope.

(** A [StreamingRecognizeRequest(audio=...)], by the bytes it carries. *)
Definition AudioRequest : Type := list byte.

(** The attribute [audio_requests] of a [TranscriptionBot]: a [Queue],
    oldest request first. *)
Definition Queue : Type := list AudioRequest.

(** [TranscriptionBot.send_encoded_audio]: no [try] here, a decoding
    error reaches the caller. *)
Definition send_encoded_audio (base64_audio_data : object) : M Queue unit :=
  let* audio_bytes := lift (base64.b64decode base64_audio_data) in
  let audio_request : AudioRequest := audio_bytes in
  modify (fun audio_requests => audio_requests ++ [audio_request]).

End transciption.

Module sound_device.
Import py.
Local Open Scope py_scope.
Local Open Scope string_scope.

Section Callback.

Variable S : Type.

(** The coroutine the caller of [send_input_device_stream] supplies. *)
Variable audio_callback : object -> M S unit.

(** The [callback] that [send_input_device_stream] gives the input
    stream; [indata] is the block of samples, as bytes. *)
Definition callback (indata : list byte) : M S unit :=
  try_except
    (let pcm_base64 := base64_encode.b64encode indata in
     audio_callback (PyStr pcm_base64))
    (fun e => logger ERROR "Error sending audio chunk: " (Some e)).

End Callback.

End sound_device.

(** ** transcribe.py: [Transcribe] *)

Module transcribe_dispatch.
Import py.
Local Open Scope py_scope.

(** [StreamingRecognizeRequest]: the configuration built by
    [_create_streaming_config], whose settings are the constants of the
    source, or one chunk of audio. *)
Inductive Request : Type :=
| streaming_config_request
| audio_request (audio : transcribe.bytes).

(** What the recognizer sends back. *)
Record Alternative : Type := mkAlternative {
  transcript : string;
  confidence : QArith_base.Q
}.

Record SpeechResult : Type := mkSpeechResult {
  alternatives : list Alternative;
  is_final : bool
}.

Record Response : Type := mkResponse { results : list SpeechResult }.

(** The pydantic model [TranscriptionResult]. *)
Record TranscriptionResult : Type := mkTranscriptionResult {
  tr_text : string;
  tr_is_final : bool;
  tr_confidence : QArith_base.Q;
  tr_alternatives : list Alternative
}.

(** A task given to the executor: the arguments of
    [_transcribe_response]. *)
Record Task : Type := mkTask {
  task_request : Request;
  task_chunks : list transcribe.bytes
}.

(** The attributes of a [Transcribe] that change: the accumulator, the
    tasks submitted to the executor (oldest first) and the
    ["transcription"] events emitted (oldest first). *)
Record Transcribe : Type := mkTranscribe {
  audio_processor : transcribe.AudioProcessor;
  submitted : list Task;
  emitted : list TranscriptionResult
}.

(** [Transcribe.__init__], once the project id and the credentials were
    found. *)
Definition __init__ : Transcribe :=
  {| audio_processor := transcribe.__init__; submitted := [];
     emitted := [] |}.

(** [Transcribe._create_streaming_config]. *)
Definition _create_streaming_config : Request := streaming_config_request.

(** [self.emit("transcription", t)]. *)
Definition emit (t : TranscriptionResult) : M Transcribe unit :=
  modify (fun self =>
            {| audio_processor := audio_processor self;
               submitted := submitted self;
               emitted := emitted self ++ [t] |}).

(** The generator [request_generator] of [_transcribe_response], as the
    list of what it yields. *)
Definition request_generator (streaming_request : Request)
  (audio_chunk : list transcribe.bytes) : list Request :=
  streaming_request :: map audio_request audio_chunk.

(** The inner loop of [_transcribe_response], over the results of one
    response. *)
Fixpoint for_results (rs : list SpeechResult) : M Transcribe unit :=
  match rs with
  | [] => ret tt
  | result :: rest =>
      (match alternatives result with
       | [] => ret tt
       | top :: others =>
           emit {| tr_text := transcript top;
                   tr_is_final := is_final result;
                   tr_confidence := confidence top;
                   tr_alternatives := others |}
       end) ;;
      for_results rest
  end.

(** The outer loop, over the responses the iterator yields. *)
Fixpoint for_responses (responses : list Response) : M Transcribe unit :=
  match responses with
  | [] => ret tt
  | response :: rest => for_results (results response) ;; for_responses rest
  end.

Section Recognize.

(** [self.client.streaming_recognize]: for the requests it is given, the
    responses its iterator yields and the error, if any, with which the
    iteration ends. *)
Variable streaming_recognize : list Request -> list Response * option PyExc.

(** [Transcribe._transcribe_response]. *)
Definition _transcribe_response (streaming_request : Request)
  (audio_chunk : list transcribe.bytes) : M Transcribe unit :=
  let '(responses, failure) :=
    streaming_recognize (request_generator streaming_request audio_chunk) in
  for_responses responses ;;
  match failure with
  | Some e => raise e
  | None => ret tt
  end.

End Recognize.

(** [Transcribe.send_audio_byte]; the task is queued in the executor, a
    worker runs it later.  The [except] clause prints to the standard
    output, which is not the log, and raises the error again. *)
Definition send_audio_byte (audio : transcribe.bytes) : M Transcribe unit :=
  try_except
    (let streaming_request := _create_streaming_config in
     let* self := get in
     let '(audio_chunk, processor) :=
       transcribe.add_audio (audio_processor self) audio in
     put {| audio_processor := processor; submitted := submitted self;
            emitted := emitted self |} ;;
     if length audio_chunk =? 0 then ret tt
     else
       modify (fun self =>
                 {| audio_processor := audio_processor self;
                    submitted :=
                      submitted self
                        ++ [ {| task_request := streaming_request;
                                task_chunks := audio_chunk |} ];
                    emitted := emitted self |}))
    (fun e => raise e).

(** A run of [send_audio_byte] calls. *)
Fixpoint send_all (inputs : list transcribe.bytes) : M Transcribe unit :=
  match inputs with
  | [] => ret tt
  | audio :: rest => send_audio_byte audio ;; send_all rest
  end.

(** The event [_transcribe_response] emits for a result, if any. *)
Definition event_of (result : SpeechResult) : list TranscriptionResult :=
  match alternatives result with
  | [] => []
  | top :: others =>
      [ {| tr_text := transcript top; tr_is_final := is_final result;
           tr_confidence := confidence top; tr_alternatives := others |} ]
  end.

(** What a task must look like. *)
Definition task_ok (t : Task) : Prop :=
  task_request t = streaming_config_request
  /\ task_chunks t <> []
  /\ Forall (fun c => length c = transcribe.PREFERRED_CHUNK_SIZE) (task_chunks t).

(** Whether a result has an alternative to report. *)
Definition has_alternative (result : SpeechResult) : bool :=
  match alternatives result with [] => false | _ :: _ => true end.

(** The instance after a worker ran [_transcribe_response] on these
    responses. *)
Definition with_events (self : Transcribe) (responses : list Response)
  : Transcribe :=
  {| audio_processor := audio_processor self;
     submitted := submitted self;
     emitted :=
       emitted self ++ flat_map event_of (flat_map results responses) |}.

End transcribe_dispatch.

(* ===================================================================== *)
(** * Part II: properties                                                 *)
(* ===================================================================== *)

(** ** The chunk accumulator *)

Module transcribe_spec.
Import transcribe.

Section ChunkLoopFacts.

Variable size : nat.
Hypothesis size_pos : 0 < size.

Local Abbreviation loop := (chunk_loop size_pos).

(** One turn of the loop, as a boolean test. *)
Lemma chunk_loop_unfold chunks buf :
  loop chunks buf =
  if size <=? length buf
  then loop (chunks ++ [firstn size buf]) (skipn size buf)
  else (chunks, buf).
Proof.
  rewrite chunk_loop_equation_1.
  destruct (le_lt_dec size (length buf)) as [Hle | Hlt]; cbn.
  - apply Nat.leb_le in Hle. rewrite Hle. reflexivity.
  - apply Nat.leb_gt in Hlt. rewrite Hlt. reflexivity.
Qed.

(** Induction on the loop: a property of the loop's result follows from
    its two branches. *)
Lemma chunk_loop_ind (P : list bytes -> bytes -> list bytes * bytes -> Prop) :
  (forall chunks buf, length buf < size -> P chunks buf (chunks, buf)) ->
  (forall chunks buf, size <= length buf ->
     P (chunks ++ [firstn size buf]) (skipn size buf)
       (loop (chunks ++ [firstn size buf]) (skipn size buf)) ->
     P chunks buf (loop (chunks ++ [firstn size buf]) (skipn size buf))) ->
  forall chunks buf, P chunks buf (loop chunks buf).
Proof.
  intros Hstop Hstep chunks buf.
  remember (length buf) as n eqn:Hn.
  revert chunks buf Hn.
  induction n as [n IH] using lt_wf_ind.
  intros chunks buf Hn.
  rewrite chunk_loop_unfold.
  destruct (size <=? length buf) eqn:Htest.
  - apply Nat.leb_le in Htest.
    apply Hstep; [exact Htest |].
    apply (IH (length (skipn size buf))); [| reflexivity].
    rewrite length_skipn. lia.
  - apply Nat.leb_gt in Htest. apply Hstop. exact Htest.
Qed.

(** What is left in the buffer is shorter than a window. *)
Lemma chunk_loop_rest_lt chunks buf :
  length (snd (loop chunks buf)) < size.
Proof.
  apply (chunk_loop_ind (fun _ _ r => length (snd r) < size)); auto.
Qed.

(** Nothing is lost: the chunks and the rest spell the chunks so far and
    the buffer. *)
Lemma chunk_loop_concat chunks buf :
  concat (fst (loop chunks buf)) ++ snd (loop chunks buf)
  = concat chunks ++ buf.
Proof.
  apply (chunk_loop_ind
           (fun c b r => concat (fst r) ++ snd r = concat c ++ b)).
  - reflexivity.
  - intros c b _ IH. rewrite IH.
    rewrite concat_app. cbn. rewrite app_nil_r, <- app_assoc.
    rewrite firstn_skipn. reflexivity.
Qed.

(** Every chunk is one window long. *)
Lemma chunk_loop_sizes chunks buf :
  Forall (fun c => length c = size) chunks ->
  Forall (fun c => length c = size) (fst (loop chunks buf)).
Proof.
  apply (chunk_loop_ind
           (fun c _ r => Forall (fun x => length x = size) c ->
                         Forall (fun x => length x = size) (fst r))).
  - auto.
  - intros c b Hle IH Hc. apply IH.
    apply Forall_app. split; [exact Hc |].
    constructor; [| constructor].
    rewrite length_firstn. lia.
Qed.

(** The chunks found so far are a prefix of the result. *)
Lemma chunk_loop_prefix acc chunks buf :
  loop (acc ++ chunks) buf
  = (acc ++ fst (loop chunks buf), snd (loop chunks buf)).
Proof.
  revert acc.
  apply (chunk_loop_ind
           (fun c b r => forall acc,
                loop (acc ++ c) b = (acc ++ fst r, snd r))).
  - intros c b Hlt acc. rewrite chunk_loop_unfold.
    apply Nat.leb_gt in Hlt. rewrite Hlt. reflexivity.
  - intros c b Hle IH acc. rewrite chunk_loop_unfold.
    apply Nat.leb_le in Hle. rewrite Hle.
    rewrite <- app_assoc. apply IH.
Qed.

Lemma chunk_loop_acc chunks buf :
  loop chunks buf = (chunks ++ fst (loop [] buf), snd (loop [] buf)).
Proof.
  rewrite <- (app_nil_r chunks) at 1. apply chunk_loop_prefix.
Qed.

(** Feeding [x ++ y] at once is feeding [x], then [y] on top of what [x]
    left. *)
Lemma chunk_loop_app chunks x y :
  loop chunks (x ++ y)
  = loop (fst (loop chunks x)) (snd (loop chunks x) ++ y).
Proof.
  apply (chunk_loop_ind
           (fun c b r => loop c (b ++ y) = loop (fst r) (snd r ++ y))).
  - reflexivity.
  - intros c b Hle IH.
    rewrite chunk_loop_unfold.
    assert (Hle' : size <= length (b ++ y)) by (rewrite length_app; lia).
    apply Nat.leb_le in Hle'. rewrite Hle'.
    rewrite firstn_app, skipn_app.
    replace (size - length b) with 0 by lia.
    cbn. rewrite app_nil_r. exact IH.
Qed.

Lemma div_mod_step n :
  size <= n ->
  n / size = S ((n - size) / size) /\ n mod size = (n - size) mod size.
Proof.
  intros Hle.
  remember (n - size) as m eqn:Hm.
  assert (Hn : n = m + 1 * size) by lia.
  rewrite Hn. clear Hn Hm Hle.
  rewrite Nat.div_add by lia.
  rewrite Nat.Div0.mod_add. split; [lia | reflexivity].
Qed.

(** The number of chunks and the size of the rest are those of a
    division. *)
Lemma chunk_loop_count chunks buf :
  length (fst (loop chunks buf)) = length chunks + length buf / size
  /\ length (snd (loop chunks buf)) = length buf mod size.
Proof.
  apply (chunk_loop_ind
           (fun c b r => length (fst r) = length c + length b / size
                         /\ length (snd r) = length b mod size)).
  - intros c b Hlt. cbn.
    rewrite Nat.div_small, Nat.mod_small by exact Hlt. lia.
  - intros c b Hle [IH1 IH2].
    rewrite length_app, length_skipn in IH1. cbn in IH1.
    rewrite length_skipn in IH2.
    destruct (div_mod_step Hle) as [Hq Hr].
    rewrite IH1, IH2, Hq, Hr. split; [| reflexivity].
    rewrite <- Nat.add_assoc. reflexivity.
Qed.

(** Chunks of equal size that spell a prefix of [x] are its consecutive
    windows. *)
Lemma windows_of_concat (chunks : list bytes) (rest x : bytes) i :
  Forall (fun c => length c = size) chunks ->
  concat chunks ++ rest = x ->
  i < length chunks ->
  nth i chunks [] = firstn size (skipn (i * size) x).
Proof.
  revert x i.
  induction chunks as [| c cs IH]; intros x i Hall Hx Hi; cbn in Hi.
  - lia.
  - inversion Hall as [| ? ? Hc Hcs]. subst x.
    cbn [concat]. rewrite <- app_assoc.
    destruct i as [| i]; cbn [nth Nat.mul Nat.add].
    + cbn [skipn]. rewrite firstn_app, Hc, Nat.sub_diag. cbn [firstn].
      rewrite app_nil_r, <- Hc, firstn_all. reflexivity.
    + rewrite skipn_app.
      rewrite (skipn_all2 c) by lia.
      replace (size + i * size - length c) with (i * size) by lia.
      cbn [app]. apply IH; [exact Hcs | reflexivity | lia].
Qed.

End ChunkLoopFacts.

(** *** Facts about [add_audio] *)

Lemma add_audio_eq self data :
  add_audio self data =
  (fst (chunk_loop PREFERRED_CHUNK_SIZE_pos [] (buffer self ++ data)),
   {| buffer :=
        snd (chunk_loop PREFERRED_CHUNK_SIZE_pos [] (buffer self ++ data)) |}).
Proof.
  unfold add_audio.
  destruct (chunk_loop PREFERRED_CHUNK_SIZE_pos [] (buffer self ++ data)).
  reflexivity.
Qed.

(** Two calls in a row are one call on the concatenation, from any state
    of the accumulator. *)
Lemma add_audio_app self a b :
  add_audio self (a ++ b) =
  (fst (add_audio self a) ++ fst (add_audio (snd (add_audio self a)) b),
   snd (add_audio (snd (add_audio self a)) b)).
Proof.
  rewrite !add_audio_eq. cbn [fst snd buffer].
  rewrite app_assoc, chunk_loop_app.
  rewrite (chunk_loop_acc _ (fst _)). reflexivity.
Qed.

(** A non-empty run of calls is one call on everything that was fed. *)
Lemma add_audio_all_concat self a rest :
  add_audio_all self (a :: rest) = add_audio self (concat (a :: rest)).
Proof.
  revert self a.
  induction rest as [| b rest IH]; intros self a.
  - cbn [add_audio_all concat]. rewrite app_nil_r.
    destruct (add_audio self a) as [chunks self'].
    rewrite app_nil_r. reflexivity.
  - change (add_audio_all self (a :: b :: rest))
      with (let '(chunks, self') := add_audio self a in
            let '(more, self'') := add_audio_all self' (b :: rest) in
            (chunks ++ more, self'')).
    change (concat (a :: b :: rest)) with (a ++ concat (b :: rest)).
    rewrite add_audio_app.
    destruct (add_audio self a) as [chunks self'].
    rewrite IH. cbn [fst snd].
    destruct (add_audio self' (concat (b :: rest))). reflexivity.
Qed.

(** Count and sizes of what one call emits and leaves. *)
Lemma add_audio_count self data :
  length (fst (add_audio self data))
  = length (buffer self ++ data) / PREFERRED_CHUNK_SIZE
  /\ length (buffer (snd (add_audio self data)))
     = length (buffer self ++ data) mod PREFERRED_CHUNK_SIZE
  /\ Forall (fun c => length c = PREFERRED_CHUNK_SIZE)
       (fst (add_audio self data)).
Proof.
  rewrite add_audio_eq. cbn [fst snd buffer].
  pose proof (chunk_loop_count PREFERRED_CHUNK_SIZE_pos []
                (buffer self ++ data)) as [Hn Hr].
  repeat split; [exact Hn | exact Hr |].
  apply chunk_loop_sizes. constructor.
Qed.

Lemma add_audio_all_spells self inputs :
  concat (fst (add_audio_all self inputs))
    ++ buffer (snd (add_audio_all self inputs))
  = buffer self ++ concat inputs.
Proof.
  destruct inputs as [| a rest].
  - cbn. rewrite app_nil_r. reflexivity.
  - rewrite add_audio_all_concat, add_audio_eq. cbn [fst snd buffer].
    apply chunk_loop_concat.
Qed.

Lemma bytes_of_get_remaining self :
  bytes_of (fst (get_remaining self)) = buffer self.
Proof.
  unfold get_remaining. destruct (buffer self); reflexivity.
Qed.

(** The scenario of the three calls, run on zero bytes: one chunk comes
    out, with the third call, and 1424 bytes stay. *)
Example add_audio_three_calls :
  let '(chunks1, self1) := add_audio __init__ (repeat x00 10000) in
  let '(chunks2, self2) := add_audio self1 (repeat x00 10000) in
  let '(chunks3, self3) := add_audio self2 (repeat x00 6000) in
  let size (b : bytes) := N.of_nat (length b) in
  (map size chunks1, map size chunks2, map size chunks3,
   size (buffer self3))
  = ([], [], [24576%N], 1424%N).
Proof. vm_compute. reflexivity. Qed.

(** *** The claims *)

(** C4 - Split invariance of the chunker: on a fresh accumulator,
    [add_audio a] followed by [add_audio b] emits, in total and in order,
    the chunks of the single call [add_audio (a ++ b)], and leaves the same
    buffer. *)
Theorem add_audio_split_invariance (a b : bytes) :
  let '(chunks_a, self_a) := add_audio __init__ a in
  let '(chunks_b, self_ab) := add_audio self_a b in
  (chunks_a ++ chunks_b, self_ab) = add_audio __init__ (a ++ b).
Proof.
  rewrite add_audio_app.
  destruct (add_audio __init__ a) as [chunks_a self_a]. cbn [fst snd].
  destruct (add_audio self_a b). reflexivity.
Qed.

(** C5 - Round trip of the chunker: after any run of [add_audio] calls on
    a fresh accumulator, the emitted chunks in emission order followed by
    the bytes of a final [get_remaining] are the concatenation of the
    inputs. *)
Theorem chunker_round_trip (inputs : list bytes) :
  let '(chunks, self) := add_audio_all __init__ inputs in
  concat chunks ++ bytes_of (fst (get_remaining self)) = concat inputs.
Proof.
  pose proof (add_audio_all_spells __init__ inputs) as H.
  destruct (add_audio_all __init__ inputs) as [chunks self].
  rewrite bytes_of_get_remaining. exact H.
Qed.

(** C6 - Invariant of the accumulator: after every [add_audio] the buffer
    is strictly shorter than [PREFERRED_CHUNK_SIZE], every emitted chunk
    has exactly that length, and the chunks are the consecutive windows of
    the bytes held before the call followed by the new bytes, in arrival
    order.  Feeding 10000, 10000 and 6000 bytes to a fresh accumulator
    emits one chunk of 24576 bytes and leaves 1424 bytes. *)
Theorem add_audio_invariant :
  (forall self data,
     let '(chunks, self') := add_audio self data in
     length (buffer self') < PREFERRED_CHUNK_SIZE
     /\ Forall (fun c => length c = PREFERRED_CHUNK_SIZE) chunks
     /\ forall i, i < length chunks ->
          nth i chunks []
          = firstn PREFERRED_CHUNK_SIZE
              (skipn (i * PREFERRED_CHUNK_SIZE) (buffer self ++ data)))
  /\ PREFERRED_CHUNK_SIZE = 24576
  /\ (forall a b c,
        length a = 10000 -> length b = 10000 -> length c = 6000 ->
        let '(chunks, self') := add_audio_all __init__ [a; b; c] in
        (exists chunk, chunks = [chunk] /\ length chunk = 24576)
        /\ length (buffer self') = 1424).
Proof.
  split; [| split; [reflexivity |]].
  - intros self data. rewrite add_audio_eq. cbn [buffer].
    split; [apply chunk_loop_rest_lt |].
    assert (Hsz : Forall (fun c => length c = PREFERRED_CHUNK_SIZE)
                    (fst (chunk_loop PREFERRED_CHUNK_SIZE_pos []
                            (buffer self ++ data))))
      by (apply chunk_loop_sizes; constructor).
    split; [exact Hsz |].
    intros i Hi.
    eapply (windows_of_concat PREFERRED_CHUNK_SIZE_pos);
      [exact Hsz | | exact Hi].
    rewrite chunk_loop_concat. reflexivity.
  - intros a b c Ha Hb Hc.
    rewrite add_audio_all_concat.
    match goal with
    | |- context [add_audio ?s ?d] =>
        pose proof (add_audio_count s d) as (Hn & Hr & Hsz);
        destruct (add_audio s d) as [chunks self']
    end.
    cbn [fst snd buffer __init__ concat app] in Hn, Hr, Hsz.
    assert (Hlen : length (a ++ b ++ c ++ []) = 26000).
    { rewrite !length_app, Ha, Hb, Hc.
      apply Nat.eqb_eq. vm_compute. reflexivity. }
    rewrite Hlen in Hn, Hr.
    assert (Hq : 26000 / PREFERRED_CHUNK_SIZE = 1)
      by (vm_compute; reflexivity).
    assert (Hm : 26000 mod PREFERRED_CHUNK_SIZE = 1424)
      by (vm_compute; reflexivity).
    rewrite Hq in Hn. rewrite Hm in Hr.
    split; [| exact Hr].
    destruct chunks as [| chunk [| ? ?]]; cbn in Hn; try discriminate.
    exists chunk. split; [reflexivity |].
    apply Forall_inv in Hsz. exact Hsz.
Qed.

(** C9 - [get_remaining] only observes: it leaves the accumulator as it
    is, so a second call returns the same result and a later [add_audio]
    behaves as if it had not been called; it returns the buffered bytes
    when there are some and [None], never an empty byte string, when
    there are none. *)
Theorem get_remaining_observer (self : AudioProcessor) :
  snd (get_remaining self) = self
  /\ get_remaining (snd (get_remaining self)) = get_remaining self
  /\ (forall data,
        add_audio (snd (get_remaining self)) data = add_audio self data)
  /\ (buffer self <> [] -> fst (get_remaining self) = Some (buffer self))
  /\ (buffer self = [] -> fst (get_remaining self) = None)
  /\ fst (get_remaining self) <> Some [].
Proof.
  assert (Hsame : snd (get_remaining self) = self)
    by (unfold get_remaining; destruct (buffer self); reflexivity).
  rewrite Hsame.
  repeat split; try reflexivity.
  - intros Hne. unfold get_remaining.
    destruct (buffer self); [contradiction | reflexivity].
  - intros He. unfold get_remaining. rewrite He. reflexivity.
  - unfold get_remaining.
    destruct (buffer self) eqn:E; cbn; discriminate.
Qed.

End transcribe_spec.

(** ** The paced track *)

Module bot_audio_track_spec.
Import py bot_audio_track examples.
Local Open Scope py_scope.

(** *** The FIFO *)

(** Reading never raises and writes no log; with fewer than [n] samples
    queued it returns [None] and leaves the FIFO as it is. *)
Lemma AudioFifo_read_returns n (w : World av.AudioFifo) :
  exists r f',
    av.AudioFifo_read n w = Returned r {| obj := f'; log := log w |}
    /\ (av.fifo_size (obj w) < n -> r = None /\ f' = obj w).
Proof.
  destruct w as [f l]. unfold av.AudioFifo_read, bind, get, ret, put.
  cbn [obj log]. unfold av.fifo_size.
  destruct (av.template f) as [t |] eqn:Ht.
  - set (b := length (av.queue f) / av.nb_channels (av.layout t)).
    destruct (b <? 1) eqn:Hb1.
    + eexists _, _. split; [reflexivity |]. auto.
    + destruct (b <? (if n =? 0 then b else n)) eqn:Hbn.
      * eexists _, _. split; [reflexivity |]. auto.
      * eexists _, _. cbn [obj log]. split; [reflexivity |].
        intros Hlt. exfalso.
        apply Nat.ltb_ge in Hb1, Hbn.
        destruct (n =? 0) eqn:Hn0; [apply Nat.eqb_eq in Hn0 |]; lia.
  - eexists _, _. split; [reflexivity |]. auto.
Qed.

(** The plane of a new mono frame accepts [n] zeros. *)
Lemma silence_plane_update n :
  av.plane_update (av.AudioFrame_new av.s16 track_layout n) (np.zeros n)
  = Ok (silence n).
Proof.
  unfold av.plane_update, av.AudioFrame_new, np.zeros, silence.
  change track_layout with av.mono. cbn [av.samples av.layout av.nb_channels].
  rewrite repeat_length, Nat.mul_1_r, Nat.eqb_refl. reflexivity.
Qed.

(** *** [recv], case by case *)

(** *** [recv], case by case *)

Section RecvCases.

Variable fifo_read : nat -> M av.AudioFifo (option av.AudioFrame).
Variable now : Time.

Lemma recv_ended w :
  readyState (obj w) = ended ->
  recv fifo_read now w = Raised MediaStreamError w.
Proof.
  intros H. unfold recv, bind, get. cbn. rewrite H. reflexivity.
Qed.

Lemma recv_live_returned w r f' :
  readyState (obj w) = live ->
  fifo_read frame_samples (read_world w) = Returned r f' ->
  recv fifo_read now w =
  Returned (stamped r (_timestamp (ticked (obj w) now)))
    {| obj := set_audio_fifo (ticked (obj w) now) (obj f');
       log := log f' |}.
Proof.
  intros Hlive Hread. destruct w as [self l].
  unfold read_world in Hread. cbn [obj log] in *.
  unfold recv, bind, get, try_except, with_fifo, zoom, modify, ret, lift.
  cbn [obj log]. rewrite Hlive. cbn [is_live negb].
  unfold ticked, stamped.
  destruct (_start self) as [t0 |] eqn:Hs; cbn [obj log];
    cbn [set_clock audio_fifo _start _timestamp];
    rewrite ?Hs, Hread; cbn [obj log];
    destruct r as [fr |]; try rewrite silence_plane_update; reflexivity.
Qed.

Lemma recv_live_raised w e f' :
  readyState (obj w) = live ->
  fifo_read frame_samples (read_world w) = Raised e f' ->
  recv fifo_read now w =
  Raised MediaStreamError
    {| obj := set_audio_fifo (ticked (obj w) now) (obj f');
       log := log f' ++ [ {| levelname := ERROR;
                             msg := "Error in recv: ";
                             exc_info := Some e |} ] |}.
Proof.
  intros Hlive Hread. destruct w as [self l].
  unfold read_world in Hread. cbn [obj log] in *.
  unfold recv, bind, get, try_except, with_fifo, zoom, modify, ret, lift,
    logger, raise.
  cbn [obj log]. rewrite Hlive. cbn [is_live negb].
  unfold ticked.
  destruct (_start self) as [t0 |] eqn:Hs; cbn [obj log];
    cbn [set_clock audio_fifo _start _timestamp];
    rewrite ?Hs, Hread; cbn [obj log]; reflexivity.
Qed.

End RecvCases.

(** *** [enqueue_audio], case by case *)

(** Writing either succeeds or raises [ValueError]; it writes no log; when
    it succeeds the queue has grown by the frame's plane (or the frame was
    empty and nothing changed), and when it raises the queue is as
    before. *)
Lemma AudioFifo_write_cases fr (w : World av.AudioFifo) :
  (exists f',
     av.AudioFifo_write fr w = Returned tt {| obj := f'; log := log w |}
     /\ (av.queue f' = av.queue (obj w) ++ av.plane fr \/ f' = obj w))
  \/ (exists f',
        av.AudioFifo_write fr w
        = Raised ValueError {| obj := f'; log := log w |}
        /\ av.queue f' = av.queue (obj w)).
Proof.
  destruct w as [f l].
  unfold av.AudioFifo_write, bind, get, ret, put, raise. cbn [obj log].
  destruct (av.samples fr =? 0); [left; eexists; split; [reflexivity | auto] |].
  destruct (av.template f) as [t |]; cbn [obj log].
  - destruct (av.same_parameters t fr); cbn [obj log].
    + destruct (av.pts fr) as [p |]; cbn [obj log].
      * destruct (negb (av.pts_per_sample t =? 0)%Z
                  && negb (p =? av.pts_per_sample t * av.samples_written f)%Z);
          cbn [obj log];
          [right; eexists; split; reflexivity
          | left; eexists; split; [reflexivity | left; reflexivity]].
      * left; eexists; split; [reflexivity | left; reflexivity].
    + right; eexists; split; reflexivity.
  - destruct (av.pts fr) as [p |]; cbn [obj log av.samples_written].
    + destruct (negb (av.pts_per_sample fr =? 0)%Z
                && negb (p =? av.pts_per_sample fr * av.samples_written f)%Z);
        cbn [obj log];
        [right; eexists; split; reflexivity
        | left; eexists; split; [reflexivity | left; reflexivity]].
    + left; eexists; split; [reflexivity | left; reflexivity].
Qed.

(** The first write into a new FIFO queues the frame's samples. *)
Lemma AudioFifo_write_new fr l :
  av.samples fr <> 0 ->
  av.pts fr = None ->
  av.AudioFifo_write fr {| obj := av.AudioFifo_new; log := l |}
  = Returned tt
      {| obj := {| av.template := Some fr; av.queue := av.plane fr;
                   av.samples_written := Z.of_nat (av.samples fr);
                   av.samples_read := 0 |};
         log := l |}.
Proof.
  intros Hn Hp.
  unfold av.AudioFifo_write, bind, get, ret, put. cbn [obj log].
  apply Nat.eqb_neq in Hn. rewrite Hn.
  cbn [av.template av.AudioFifo_new obj log]. rewrite Hp.
  reflexivity.
Qed.

(** A decoded frame carries no timestamp, and as many samples as its
    plane holds. *)
Lemma decode_frame_shape a fr :
  decode_frame a = Ok fr ->
  av.pts fr = None /\ av.layout fr = av.mono
  /\ length (av.plane fr) = av.samples fr
  /\ av.sample_rate fr = sample_rate.
Proof.
  unfold decode_frame, bind_result.
  destruct (base64.b64decode a) as [bs |]; [| discriminate].
  destruct (np.frombuffer bs) as [arr |]; [| discriminate].
  destruct (np.reshape channels arr) as [rows |]; [| discriminate].
  unfold av.from_ndarray.
  destruct rows as [| row [| ? ?]]; try discriminate.
  unfold av.plane_update, av.AudioFrame_new.
  change track_layout with av.mono.
  cbn [av.samples av.layout av.nb_channels].
  destruct (length row =? length row / 1 * 1) eqn:E; [| discriminate].
  intros H. injection H as <-. cbn.
  apply Nat.eqb_eq in E. rewrite Nat.mul_1_r in E.
  repeat split; auto.
Qed.

(** [enqueue_audio] always returns; it never touches the state or the
    clock of the track; on an ended track it does nothing; when decoding
    fails the FIFO is as before and one error is logged; and the queue
    either is as before or has grown by the whole decoded frame. *)
Lemma enqueue_audio_returns a (w : World BotAudioTrack) :
  exists w',
    enqueue_audio a w = Returned tt w'
    /\ readyState (obj w') = readyState (obj w)
    /\ _start (obj w') = _start (obj w)
    /\ _timestamp (obj w') = _timestamp (obj w)
    /\ (readyState (obj w) = ended -> w' = w)
    /\ (forall e, readyState (obj w) = live -> decode_frame a = Raise e ->
          w' = {| obj := obj w;
                  log := log w ++ [ {| levelname := ERROR;
                                       msg := "Error in enqueue_audio: ";
                                       exc_info := Some e |} ] |})
    /\ (av.queue (audio_fifo (obj w')) = av.queue (audio_fifo (obj w))
        \/ exists fr,
             decode_frame a = Ok fr
             /\ av.queue (audio_fifo (obj w'))
                = av.queue (audio_fifo (obj w)) ++ av.plane fr).
Proof.
  destruct w as [self l].
  unfold enqueue_audio, bind, get, try_except, lift, with_fifo, zoom,
    logger, ret.
  cbn [obj log].
  destruct (readyState self) eqn:Hrs; cbn [is_live negb].
  - destruct (decode_frame a) as [fr | e] eqn:Hd; cbn [obj log].
    + destruct (AudioFifo_write_cases fr
                  {| obj := audio_fifo self; log := l |})
        as [(f' & Hw & Hq) | (f' & Hw & Hq)];
        rewrite Hw; cbn [obj log];
        eexists; (split; [reflexivity |]); cbn [obj log];
        (repeat split; cbn; [intros; congruence .. |]).
      * destruct Hq as [Hq | ->]; [right | left; reflexivity].
        exists fr. split; [reflexivity | exact Hq].
      * left. exact Hq.
    + eexists; (split; [reflexivity |]); cbn [obj log].
      repeat split; cbn; [intros; congruence .. |]. left. reflexivity.
  - eexists; (split; [reflexivity |]); cbn [obj log].
    repeat split; cbn; [intros; congruence .. |]. left. reflexivity.
Qed.

(** On a live track with a new FIFO, valid audio ends up queued. *)
Lemma enqueue_audio_new_fifo a fr self l :
  readyState self = live ->
  audio_fifo self = av.AudioFifo_new ->
  decode_frame a = Ok fr ->
  av.samples fr <> 0 ->
  enqueue_audio a {| obj := self; log := l |}
  = Returned tt
      {| obj := set_audio_fifo self
                  {| av.template := Some fr; av.queue := av.plane fr;
                     av.samples_written := Z.of_nat (av.samples fr);
                     av.samples_read := 0 |};
         log := l |}.
Proof.
  intros Hlive Hnew Hd Hn.
  unfold enqueue_audio, bind, get, try_except, lift, with_fifo, zoom.
  cbn [obj log]. rewrite Hlive. cbn [is_live negb].
  rewrite Hd. cbn [obj log]. rewrite Hnew.
  rewrite AudioFifo_write_new;
    [reflexivity | exact Hn | apply (decode_frame_shape a), Hd].
Qed.

(** The payload of the examples decodes into its two samples; text that
    is not whole 16-bit samples, or not base64, does not decode. *)
Example decode_frame_examples :
  decode_frame two_samples = Ok two_samples_frame
  /\ decode_frame (PyStr "AAAA") = Raise ValueError
  /\ decode_frame (PyStr "AQACAA=") = Raise binascii_Error
  /\ decode_frame (PyInt 7) = Raise TypeError.
Proof. repeat split. Qed.

(** *** The claims *)

(** With PyAV's FIFO a live track always gets its frame. *)
Lemma recv_live_av now (w : World BotAudioTrack) :
  readyState (obj w) = live ->
  exists r f',
    recv av.AudioFifo_read now w =
    Returned (stamped r (_timestamp (ticked (obj w) now)))
      {| obj := set_audio_fifo (ticked (obj w) now) f'; log := log w |}
    /\ (av.fifo_size (audio_fifo (obj w)) < frame_samples ->
        r = None /\ f' = audio_fifo (obj w)).
Proof.
  intros Hlive.
  destruct (AudioFifo_read_returns frame_samples (read_world w))
    as (r & f' & Hread & Hunder).
  exists r, f'. split; [| exact Hunder].
  rewrite recv_live_returned with (r := r) (f' := {| obj := f'; log := log w |})
    by assumption.
  reflexivity.
Qed.

Lemma ticked_facts self now :
  readyState (ticked self now) = readyState self
  /\ _start (ticked self now) <> None
  /\ _timestamp (ticked self now)
     = (base_timestamp self + Z.of_nat frame_samples)%Z
  /\ audio_fifo (ticked self now) = audio_fifo self.
Proof.
  unfold ticked, base_timestamp.
  destruct (_start self) eqn:Hs; cbn; rewrite ?Hs;
    repeat split; discriminate.
Qed.

Lemma run_timestamps (calls : list Call) :
  forall w : World BotAudioTrack,
    readyState (obj w) = live ->
    exists frames w',
      run calls w = Returned frames w'
      /\ map av.pts frames
         = map (fun k => Some (base_timestamp (obj w)
                               + Z.of_nat k * Z.of_nat frame_samples)%Z)
             (seq 1 (length (filter is_recv calls))).
Proof.
  induction calls as [| c calls IH]; intros w Hlive.
  - exists [], w. split; reflexivity.
  - destruct c as [a | | now]; cbn [run filter is_recv]; unfold bind.
    + destruct (enqueue_audio_returns a w)
        as (w1 & Hrun & Hrs & Hst & Hts & _).
      rewrite Hrun.
      destruct (IH w1) as (frames & w' & Hrest & Hpts);
        [congruence |].
      exists frames, w'. split; [exact Hrest |].
      rewrite Hpts. unfold base_timestamp. rewrite Hst, Hts. reflexivity.
    + unfold flush_audio, modify.
      destruct (IH {| obj := set_audio_fifo (obj w) av.AudioFifo_new;
                      log := log w |})
        as (frames & w' & Hrest & Hpts); [exact Hlive |].
      exists frames, w'. split; [exact Hrest |]. exact Hpts.
    + destruct (recv_live_av now w Hlive) as (r & f' & Hrecv & _).
      rewrite Hrecv.
      destruct (ticked_facts (obj w) now) as (Hrs & Hst & Hts & _).
      set (w1 := {| obj := set_audio_fifo (ticked (obj w) now) f';
                    log := log w |}).
      destruct (IH w1) as (frames & w' & Hrest & Hpts);
        [cbn; congruence |].
      rewrite Hrest. unfold ret.
      eexists _, _. split; [reflexivity |].
      cbn [map length seq]. f_equal.
      * unfold stamped. cbn [av.pts av.set_pts]. rewrite Hts.
        rewrite Z.mul_1_l. reflexivity.
      * rewrite Hpts. rewrite <- (seq_shift _ 1), map_map.
        apply map_ext. intros k.
        assert (Hb : base_timestamp (obj w1)
                     = (base_timestamp (obj w) + Z.of_nat frame_samples)%Z).
        { unfold base_timestamp, w1. cbn [obj _start _timestamp set_audio_fifo].
          destruct (_start (ticked (obj w) now)); [exact Hts | congruence]. }
        rewrite Hb, Nat2Z.inj_succ. f_equal. lia.
Qed.

(** C1 (as the code has it) - Cadence of the timestamps: take a live
    track that has not started its schedule, with any content in its FIFO,
    and any sequence of writes, flushes and [recv] calls.  Every [recv]
    returns a frame, and the timestamps of the frames are
    [frame_samples], [2 * frame_samples], ..., [N * frame_samples]: each
    tick adds exactly [frame_samples], whatever was buffered and whatever
    timestamp the FIFO gave the frame.  The first timestamp is
    [frame_samples]. *)
Theorem recv_timestamp_cadence (calls : list Call)
  (w : World BotAudioTrack) :
  readyState (obj w) = live ->
  _start (obj w) = None ->
  exists frames w',
    run calls w = Returned frames w'
    /\ map av.pts frames
       = map (fun k => Some (Z.of_nat k * Z.of_nat frame_samples)%Z)
           (seq 1 (length (filter is_recv calls))).
Proof.
  intros Hlive Hstart.
  destruct (run_timestamps calls w Hlive) as (frames & w' & Hrun & Hpts).
  exists frames, w'. split; [exact Hrun |].
  rewrite Hpts. unfold base_timestamp. rewrite Hstart. reflexivity.
Qed.

(** C7 - Underrun: on a live track whose FIFO holds no sample, [recv]
    returns a frame of exactly [frame_samples] samples, all zero, in the
    track's format, layout and sample rate; the FIFO is left as it was. *)
Theorem recv_underrun_silence (now : Time) (w : World BotAudioTrack) :
  readyState (obj w) = live ->
  av.fifo_size (audio_fifo (obj w)) = 0 ->
  exists frame w',
    recv av.AudioFifo_read now w = Returned frame w'
    /\ av.samples frame = frame_samples
    /\ av.plane frame = repeat 0%Z frame_samples
    /\ av.format frame = av.s16
    /\ av.layout frame = track_layout
    /\ av.sample_rate frame = sample_rate
    /\ audio_fifo (obj w') = audio_fifo (obj w).
Proof.
  intros Hlive Hempty.
  destruct (recv_live_av now w Hlive) as (r & f' & Hrecv & Hunder).
  destruct Hunder as [-> ->].
  { rewrite Hempty. unfold frame_samples. lia. }
  eexists _, _. split; [exact Hrecv |].
  repeat split.
Qed.

(** C3 (as the code has it) - Failure of [recv]: the only exception that
    leaves [recv] is [MediaStreamError].  It is raised when the track has
    ended, with nothing changed, and also on a live track when reading the
    FIFO raises: the error is logged and [MediaStreamError] is raised in
    its place, no silence frame is returned.  [recv] returns a frame
    exactly when the track is live and the read returns; with PyAV's FIFO,
    whose read does not raise, that is whenever the track is live. *)
Theorem recv_failure_semantics
  (fifo_read : nat -> M av.AudioFifo (option av.AudioFrame))
  (now : Time) (w : World BotAudioTrack) :
  match recv fifo_read now w with
  | Returned frame w' =>
      readyState (obj w) = live
      /\ exists r f',
           fifo_read frame_samples (read_world w) = Returned r f'
  | Raised e w' =>
      e = MediaStreamError
      /\ ((readyState (obj w) = ended /\ w' = w)
          \/ (readyState (obj w) = live
              /\ exists e' f',
                   fifo_read frame_samples (read_world w) = Raised e' f'
                   /\ log w' = log f' ++ [ {| levelname := ERROR;
                                              msg := "Error in recv: ";
                                              exc_info := Some e' |} ]))
  end
  /\ (readyState (obj w) = live ->
      exists frame w', recv av.AudioFifo_read now w = Returned frame w').
Proof.
  split.
  - destruct (readyState (obj w)) eqn:Hrs.
    + destruct (fifo_read frame_samples (read_world w)) as [r f' | e' f']
        eqn:Hread.
      * rewrite recv_live_returned with (r := r) (f' := f') by assumption.
        split; [reflexivity |]. eauto.
      * rewrite recv_live_raised with (e := e') (f' := f') by assumption.
        split; [reflexivity |]. right. split; [reflexivity |].
        exists e', f'. split; reflexivity.
    + rewrite recv_ended by assumption.
      split; [reflexivity |]. left. split; reflexivity.
  - intros Hlive.
    destruct (recv_live_av now w Hlive) as (r & f' & Hrecv & _).
    eauto.
Qed.

(** C10 - [enqueue_audio] is total and atomic: for every argument (every
    string in particular) it returns normally; on a track that is not live
    nothing changes; when the payload does not decode into a frame, at
    whichever step - the base64 text is rejected, the bytes are not whole
    16-bit samples, the samples do not divide into the channels - the FIFO
    is exactly as before; and in every case the queue is either as before
    or longer by the whole decoded frame, never by a part of it. *)
Theorem enqueue_audio_total_atomic (base64_audio : object)
  (w : World BotAudioTrack) :
  exists w',
    enqueue_audio base64_audio w = Returned tt w'
    /\ (readyState (obj w) <> live -> w' = w)
    /\ (forall e, decode_frame base64_audio = Raise e ->
          audio_fifo (obj w') = audio_fifo (obj w))
    /\ (forall e, base64.b64decode base64_audio = Raise e ->
          audio_fifo (obj w') = audio_fifo (obj w))
    /\ (forall audio_bytes e,
          base64.b64decode base64_audio = Ok audio_bytes ->
          np.frombuffer audio_bytes = Raise e ->
          audio_fifo (obj w') = audio_fifo (obj w))
    /\ (av.queue (audio_fifo (obj w')) = av.queue (audio_fifo (obj w))
        \/ exists frame,
             decode_frame base64_audio = Ok frame
             /\ av.queue (audio_fifo (obj w'))
                = av.queue (audio_fifo (obj w)) ++ av.plane frame).
Proof.
  destruct (enqueue_audio_returns base64_audio w)
    as (w' & Hrun & _ & _ & _ & Hended & Hbad & Hall).
  exists w'. split; [exact Hrun |].
  assert (Hdecode : forall e, decode_frame base64_audio = Raise e ->
                      audio_fifo (obj w') = audio_fifo (obj w)).
  { intros e He. destruct (readyState (obj w)) eqn:Hrs.
    - rewrite (Hbad e eq_refl He). reflexivity.
    - rewrite (Hended eq_refl). reflexivity. }
  split; [| split; [exact Hdecode | split; [| split; [| exact Hall]]]].
  - intros Hnl. apply Hended.
    destruct (readyState (obj w)); [contradiction | reflexivity].
  - intros e He. apply (Hdecode e).
    unfold decode_frame. rewrite He. reflexivity.
  - intros bs e Hb He. apply (Hdecode e).
    unfold decode_frame. rewrite Hb. cbn. rewrite He. reflexivity.
Qed.

(** *** Concrete runs *)

(** Three ticks on a new track, among writes and a flush: the frames are
    stamped 480, 960 and 1440. *)
Lemma recv_timestamp_cadence_witness :
  readyState (obj new_track) = live
  /\ _start (obj new_track) = None
  /\ exists frames w',
       run three_ticks new_track = Returned frames w'
       /\ map av.pts frames
          = map (fun k => Some (Z.of_nat k * Z.of_nat frame_samples)%Z)
              (seq 1 (length (filter is_recv three_ticks))).
Proof.
  split; [reflexivity |]. split; [reflexivity |].
  apply (recv_timestamp_cadence three_ticks new_track); reflexivity.
Defined.

(** C1, as stated, fails at the first tick: the first frame of a new
    track is stamped [frame_samples] = 480, not 0. *)
Lemma first_frame_timestamp_not_zero :
  exists frames w',
    run [call_recv t0] new_track = Returned frames w'
    /\ map av.pts frames = [Some 480%Z]
    /\ map av.pts frames <> [Some 0%Z].
Proof.
  eexists _, _. split; [reflexivity |].
  split; [reflexivity | discriminate].
Qed.

(** [recv] on a new track, whose FIFO is empty. *)
Lemma recv_underrun_silence_witness :
  readyState (obj new_track) = live
  /\ av.fifo_size (audio_fifo (obj new_track)) = 0
  /\ exists frame w',
       recv av.AudioFifo_read t0 new_track = Returned frame w'
       /\ av.samples frame = frame_samples
       /\ av.plane frame = repeat 0%Z frame_samples
       /\ av.format frame = av.s16
       /\ av.layout frame = track_layout
       /\ av.sample_rate frame = sample_rate
       /\ audio_fifo (obj w') = audio_fifo (obj new_track).
Proof.
  split; [reflexivity |]. split; [reflexivity |].
  apply (recv_underrun_silence t0 new_track); reflexivity.
Defined.

(** C3, as stated, fails on a live track whose FIFO read raises: the
    error is logged and [recv] raises [MediaStreamError]; no silence frame
    is returned. *)
Lemma recv_raises_on_read_error :
  readyState (obj new_track) = live
  /\ exists w',
       recv failing_read t0 new_track = Raised MediaStreamError w'
       /\ log w' = [ {| levelname := ERROR; msg := "Error in recv: ";
                        exc_info := Some ValueError |} ].
Proof.
  split; [reflexivity |].
  eexists. split; [lazy; reflexivity | reflexivity].
Qed.

End bot_audio_track_spec.

(** ** The inbound dispatcher *)

Module open_ai_spec.
Import py open_ai examples.
Local Open Scope py_scope.
Local Open Scope string_scope.

(** A message whose type is a string runs the handler the table gives for
    it, after the debug record; what the handler returns is what
    [_handle_message] returns. *)
Lemma _handle_message_dispatch items t handler (w w' : World OpenBot) :
  dict_get items "type" = Some (PyStr t) ->
  dict_get handlers t = Some handler ->
  handler items {| obj := obj w; log := log w ++ [debug_record] |}
  = Returned tt w' ->
  _handle_message (Ok (PyDict items)) w = Returned tt w'.
Proof.
  intros Ht Hh Hrun.
  unfold _handle_message, try_except, bind, lift, get_type, logger.
  rewrite Ht. cbn [handlers_get]. rewrite Hh. cbn [items_of].
  unfold debug_record in Hrun. rewrite Hrun. reflexivity.
Qed.

(** The speech-started handler logs and replaces the FIFO of the track. *)
Lemma _handle_audio_buffer_speech_started_flushes items (w : World OpenBot) :
  _handle_audio_buffer_speech_started items w
  = Returned tt
      {| obj := set_audio_track (obj w)
                  (bot_audio_track.set_audio_fifo (audio_track (obj w))
                     av.AudioFifo_new);
         log := log w ++ [ {| levelname := INFO; msg := "Speech Started: ";
                              exc_info := None |} ] |}.
Proof. reflexivity. Qed.

(** Audio that decodes into a non-empty frame is a non-empty string. *)
Lemma valid_audio_truthy delta frame :
  bot_audio_track.decode_frame delta = Ok frame ->
  av.samples frame <> 0 ->
  truthy delta = true.
Proof.
  intros Hd Hn. destruct delta as [| b | n | s | l | d];
    try (cbv in Hd; discriminate).
  destruct s as [| c s]; [| reflexivity].
  cbv in Hd. injection Hd as <-. cbn in Hn. contradiction.
Qed.

(** The audio-delta handler hands a truthy ["delta"] to the track. *)
Lemma _handle_audio_delta_enqueues items delta (w : World OpenBot) :
  dict_get items "delta" = Some delta ->
  truthy delta = true ->
  _handle_audio_delta items w
  = on_track (bot_audio_track.enqueue_audio delta) w.
Proof.
  intros Hd Ht. unfold _handle_audio_delta, get_or_None.
  rewrite Hd, Ht. reflexivity.
Qed.

(** *** The claims *)

(** C2 - What the dispatcher does with the two discriminators.  A
    speech-stopped envelope that carries a ["delta"] is given to the
    audio-delta handler: on a new bot the two samples of the payload are
    in the FIFO afterwards, which was empty before.  An error envelope is
    given to the speech-stopped handler, which only logs: the bot is
    unchanged and the log has the debug record and one "Speech Stopped"
    record more. *)
Theorem speech_stopped_writes_audio :
  (exists w',
     _handle_message (Ok (PyDict speech_stopped_envelope)) fresh_bot
     = Returned tt w'
     /\ av.queue (bot_audio_track.audio_fifo (audio_track (obj fresh_bot)))
        = []
     /\ av.queue (bot_audio_track.audio_fifo (audio_track (obj w')))
        = [1%Z; 2%Z])
  /\ (forall items (w : World OpenBot),
        dict_get items "type" = Some (PyStr ResponseMessageTypes.error) ->
        _handle_message (Ok (PyDict items)) w
        = Returned tt
            {| obj := obj w;
               log := log w ++ [debug_record]
                        ++ [ {| levelname := INFO; msg := "Speech Stopped: ";
                                exc_info := None |} ] |}).
Proof.
  split.
  - eexists. split; [reflexivity |]. split; reflexivity.
  - intros items w Ht.
    apply _handle_message_dispatch
      with (t := ResponseMessageTypes.error)
           (handler := _handle_audio_buffer_speech_stopped);
      [exact Ht | reflexivity |].
    unfold _handle_audio_buffer_speech_stopped, logger. cbn [obj log].
    rewrite <- app_assoc. reflexivity.
Qed.

(** C8 (as the code has it) - Barge-in ordering on a live track: whatever
    the FIFO holds, when the socket delivers a speech-started envelope and
    then an audio-delta envelope whose ["delta"] decodes into a non-empty
    frame, and the track is live, both are handled in that order and the
    FIFO afterwards holds exactly the samples of the second envelope. *)
Theorem speech_started_then_audio_delta
  (w : World OpenBot) (E1 E2 : Dict object) (delta : object)
  (frame : av.AudioFrame) :
  ws_connected (obj w) = true ->
  bot_audio_track.readyState (audio_track (obj w)) = bot_audio_track.live ->
  dict_get E1 "type"
  = Some (PyStr ResponseMessageTypes.inputAudioBufferSpeechStarted) ->
  dict_get E2 "type" = Some (PyStr ResponseMessageTypes.responseAudioDelta) ->
  dict_get E2 "delta" = Some delta ->
  bot_audio_track.decode_frame delta = Ok frame ->
  av.samples frame <> 0 ->
  exists w',
    _listen [Ok (PyDict E1); Ok (PyDict E2)] w = Returned tt w'
    /\ av.queue (bot_audio_track.audio_fifo (audio_track (obj w')))
       = av.plane frame
    /\ av.fifo_size (bot_audio_track.audio_fifo (audio_track (obj w')))
       = av.samples frame.
Proof.
  intros Hws Hlive Ht1 Ht2 Hdelta Hdecode Hsamples.
  destruct w as [self l]. cbn [obj log] in *.
  set (track1 := bot_audio_track.set_audio_fifo (audio_track self)
                   av.AudioFifo_new).
  set (log1 := ((l ++ [debug_record])
                  ++ [ {| levelname := INFO; msg := "Speech Started: ";
                          exc_info := None |} ])%list).
  set (w1 := {| obj := set_audio_track self track1; log := log1 |}).
  assert (H1 : _handle_message (Ok (PyDict E1)) {| obj := self; log := l |}
               = Returned tt w1).
  { apply _handle_message_dispatch
      with (t := ResponseMessageTypes.inputAudioBufferSpeechStarted)
           (handler := _handle_audio_buffer_speech_started);
      [exact Ht1 | reflexivity |].
    rewrite _handle_audio_buffer_speech_started_flushes. reflexivity. }
  set (fifo2 := {| av.template := Some frame; av.queue := av.plane frame;
                   av.samples_written := Z.of_nat (av.samples frame);
                   av.samples_read := 0 |}).
  set (w2 := {| obj := set_audio_track self
                         (bot_audio_track.set_audio_fifo track1 fifo2);
                log := (log1 ++ [debug_record])%list |}).
  assert (H2 : _handle_message (Ok (PyDict E2)) w1 = Returned tt w2).
  { apply _handle_message_dispatch
      with (t := ResponseMessageTypes.responseAudioDelta)
           (handler := _handle_audio_delta);
      [exact Ht2 | reflexivity |].
    rewrite _handle_audio_delta_enqueues with (delta := delta);
      [| exact Hdelta | exact (valid_audio_truthy delta Hdecode Hsamples)].
    unfold on_track, zoom. cbn [obj log w1 audio_track set_audio_track].
    rewrite bot_audio_track_spec.enqueue_audio_new_fifo with (fr := frame);
      [reflexivity | exact Hlive | reflexivity | exact Hdecode
      | exact Hsamples]. }
  exists w2.
  split.
  - unfold _listen, try_except, bind, get. cbn [obj log].
    rewrite Hws. cbn [negb listen_loop]. unfold bind.
    rewrite H1, H2. reflexivity.
  - destruct (bot_audio_track_spec.decode_frame_shape delta Hdecode)
      as (_ & Hlayout & Hlen & _).
    split; [reflexivity |].
    unfold av.fifo_size.
    cbn [obj w2 audio_track set_audio_track bot_audio_track.audio_fifo
         bot_audio_track.set_audio_fifo fifo2 av.template av.queue].
    rewrite Hlayout, Hlen. cbn [av.nb_channels]. apply Nat.div_1_r.
Qed.

(** *** Concrete runs *)

(** Barge-in on a bot in the middle of a playback: the two queued samples
    are gone and the two new ones are queued. *)
Lemma speech_started_then_audio_delta_witness :
  ws_connected (obj playing_bot) = true
  /\ bot_audio_track.readyState (audio_track (obj playing_bot))
     = bot_audio_track.live
  /\ av.queue (bot_audio_track.audio_fifo (audio_track (obj playing_bot)))
     = [5%Z; 6%Z]
  /\ exists w',
       _listen [Ok (PyDict speech_started_envelope);
                Ok (PyDict audio_delta_envelope)] playing_bot
       = Returned tt w'
       /\ av.queue (bot_audio_track.audio_fifo (audio_track (obj w')))
          = av.plane two_samples_frame
       /\ av.fifo_size (bot_audio_track.audio_fifo (audio_track (obj w')))
          = av.samples two_samples_frame.
Proof.
  split; [reflexivity |]. split; [reflexivity |]. split; [reflexivity |].
  apply (@speech_started_then_audio_delta playing_bot
           speech_started_envelope audio_delta_envelope two_samples
           two_samples_frame);
    try reflexivity.
  discriminate.
Defined.

(** C8, as stated, fails once the track has ended: both envelopes are
    handled, the audio of the second is valid, and the FIFO is empty
    afterwards. *)
Lemma audio_delta_lost_on_ended_track :
  exists w',
    _listen [Ok (PyDict speech_started_envelope);
             Ok (PyDict audio_delta_envelope)] closed_bot
    = Returned tt w'
    /\ bot_audio_track.decode_frame two_samples = Ok two_samples_frame
    /\ av.plane two_samples_frame = [1%Z; 2%Z]
    /\ av.queue (bot_audio_track.audio_fifo (audio_track (obj w'))) = [].
Proof.
  eexists. split; [reflexivity |].
  split; [reflexivity |]. split; reflexivity.
Qed.

End open_ai_spec.

(** ** The track over its whole life *)

Module bot_audio_track_life_spec.
Import py bot_audio_track bot_audio_track_life.
Local Open Scope py_scope.

(** *** The FIFO under the track's own frames *)

Lemma fifo_ok_new : fifo_ok av.AudioFifo_new.
Proof. split; reflexivity. Qed.

(** What [enqueue_audio] decodes has the attributes the track writes on
    it. *)
Lemma decode_frame_attrs a fr :
  decode_frame a = Ok fr ->
  av.layout fr = av.mono
  /\ av.sample_rate fr = sample_rate
  /\ av.time_base fr = Some track_time_base
  /\ av.pts fr = None
  /\ length (av.plane fr) = av.samples fr.
Proof.
  unfold decode_frame, bind_result.
  destruct (base64.b64decode a) as [bs |]; [| discriminate].
  destruct (np.frombuffer bs) as [arr |]; [| discriminate].
  destruct (np.reshape channels arr) as [rows |]; [| discriminate].
  unfold av.from_ndarray.
  destruct rows as [| row [| ? ?]]; try discriminate.
  unfold av.plane_update, av.AudioFrame_new.
  change track_layout with av.mono.
  cbn [av.samples av.layout av.nb_channels].
  destruct (length row =? length row / 1 * 1) eqn:E; [| discriminate].
  intros H. injection H as <-. cbn.
  apply Nat.eqb_eq in E. rewrite Nat.mul_1_r in E.
  repeat split; auto.
Qed.

Lemma fifo_ok_written f fr :
  fifo_ok f ->
  av.layout fr = av.mono ->
  av.sample_rate fr = sample_rate ->
  av.time_base fr = Some track_time_base ->
  length (av.plane fr) = av.samples fr ->
  fifo_ok (written f fr).
Proof.
  intros [Ht Hc] Hl Hr Hb Hn. unfold written.
  destruct (av.samples fr =? 0); [split; assumption |].
  split; cbn [av.template av.queue av.samples_written av.samples_read].
  - destruct (av.template f); [exact Ht | auto].
  - rewrite length_app, Hn. lia.
Qed.

Lemma fifo_ok_behead f n :
  fifo_ok f -> n <= length (av.queue f) -> fifo_ok (behead f n).
Proof.
  intros [Ht Hc] Hn. unfold behead.
  split; cbn [av.template av.queue av.samples_written av.samples_read].
  - destruct (av.template f); [exact Ht |].
    rewrite Ht. destruct n; reflexivity.
  - rewrite length_skipn. lia.
Qed.

(** On such a FIFO [write] of a decoded frame never raises. *)
Lemma AudioFifo_write_ok f fr l :
  fifo_ok f ->
  av.layout fr = av.mono ->
  av.sample_rate fr = sample_rate ->
  av.time_base fr = Some track_time_base ->
  av.pts fr = None ->
  av.AudioFifo_write fr {| obj := f; log := l |}
  = Returned tt {| obj := written f fr; log := l |}.
Proof.
  intros [Ht _] Hl Hr Hb Hp.
  unfold av.AudioFifo_write, written, bind, get, ret, put, raise.
  cbn [obj log].
  destruct (av.samples fr =? 0); [destruct f; reflexivity |].
  destruct (av.template f) as [t |] eqn:Htpl; cbn [obj log].
  - destruct Ht as (Htl & Htr & Htb).
    unfold av.same_parameters.
    rewrite Htl, Hl, Htr, Hr, Htb, Hb. cbn.
    rewrite Hp, Htpl. reflexivity.
  - rewrite Hp. reflexivity.
Qed.

(** On such a FIFO [read n] takes the first [n] samples when there are
    that many, and nothing otherwise. *)
Lemma AudioFifo_read_ok f n l :
  fifo_ok f ->
  n <> 0 ->
  av.AudioFifo_read n {| obj := f; log := l |}
  = if n <=? length (av.queue f)
    then Returned (Some (head_frame f n)) {| obj := behead f n; log := l |}
    else Returned None {| obj := f; log := l |}.
Proof.
  intros [Ht _] Hn.
  unfold av.AudioFifo_read, bind, get, ret, put. cbn [obj log].
  unfold av.fifo_size.
  destruct (av.template f) as [t |] eqn:Htpl.
  - destruct Ht as (Htl & Htr & Htb).
    rewrite Htl. cbn [av.nb_channels].
    rewrite Nat.div_1_r, Nat.mul_1_r.
    apply Nat.eqb_neq in Hn. rewrite Hn.
    destruct (n <=? length (av.queue f)) eqn:Hle.
    + apply Nat.leb_le in Hle. apply Nat.eqb_neq in Hn.
      assert (H1 : (length (av.queue f) <? 1) = false)
        by (apply Nat.ltb_ge; lia).
      assert (H2 : (length (av.queue f) <? n) = false)
        by (apply Nat.ltb_ge; lia).
      rewrite H1, H2. cbn [obj log].
      unfold head_frame, behead, av.pts_per_sample.
      rewrite Htb, Htr, Htpl. cbn.
      destruct t as [[] ? ? ? ? ? ?].
      cbn in Htl. subst.
      destruct (av.samples_read f); reflexivity.
    + apply Nat.leb_gt in Hle.
      destruct (length (av.queue f) <? 1); [reflexivity |].
      apply Nat.ltb_lt in Hle. rewrite Hle. reflexivity.
  - rewrite Ht. cbn [length].
    destruct (n <=? 0) eqn:Hle; [| reflexivity].
    apply Nat.leb_le in Hle. lia.
Qed.

(** *** The track on such a FIFO *)

Lemma enqueue_audio_ok a fr (w : World BotAudioTrack) :
  readyState (obj w) = live ->
  fifo_ok (audio_fifo (obj w)) ->
  decode_frame a = Ok fr ->
  enqueue_audio a w
  = Returned tt
      {| obj := set_audio_fifo (obj w) (written (audio_fifo (obj w)) fr);
         log := log w |}.
Proof.
  intros Hlive Hok Hd. destruct w as [self l]. cbn [obj log] in *.
  destruct (decode_frame_attrs a Hd) as (Hl & Hr & Hb & Hp & _).
  unfold enqueue_audio, bind, get, try_except, lift, with_fifo, zoom.
  cbn [obj log]. rewrite Hlive. cbn [is_live negb].
  rewrite Hd. cbn [obj log].
  rewrite AudioFifo_write_ok by assumption. reflexivity.
Qed.

Lemma recv_ok now (w : World BotAudioTrack) :
  readyState (obj w) = live ->
  fifo_ok (audio_fifo (obj w)) ->
  recv av.AudioFifo_read now w
  = Returned
      (stamped (taken (audio_fifo (obj w)))
         (_timestamp (ticked (obj w) now)))
      {| obj := set_audio_fifo (ticked (obj w) now)
                  (left_over (audio_fifo (obj w)));
         log := log w |}.
Proof.
  intros Hlive Hok.
  rewrite bot_audio_track_spec.recv_live_returned
    with (r := taken (audio_fifo (obj w)))
         (f' := {| obj := left_over (audio_fifo (obj w)); log := log w |});
    [reflexivity | exact Hlive |].
  unfold read_world. rewrite AudioFifo_read_ok;
    [| exact Hok | discriminate].
  unfold taken, left_over.
  destruct (frame_samples <=? length (av.queue (audio_fifo (obj w))));
    reflexivity.
Qed.

Lemma fifo_ok_left_over f : fifo_ok f -> fifo_ok (left_over f).
Proof.
  intros Hok. unfold left_over.
  destruct (frame_samples <=? length (av.queue f)) eqn:Hle; [| exact Hok].
  apply fifo_ok_behead; [exact Hok |]. apply Nat.leb_le. exact Hle.
Qed.

(** Every call keeps the FIFO of the track well formed. *)
Lemma do_op_fifo_ok o (w : World BotAudioTrack) :
  fifo_ok (audio_fifo (obj w)) -> fifo_ok (audio_fifo (obj (do_op o w))).
Proof.
  intros Hok. destruct o as [a | | now |]; cbn [do_op].
  - destruct (readyState (obj w)) eqn:Hrs.
    + destruct (decode_frame a) as [fr | e] eqn:Hd.
      * rewrite (enqueue_audio_ok a w Hrs Hok Hd). cbn.
        destruct (decode_frame_attrs a Hd) as (Hl & Hr & Hb & _ & Hn).
        apply fifo_ok_written; assumption.
      * destruct (bot_audio_track_spec.enqueue_audio_returns a w)
          as (w' & Hrun & _ & _ & _ & _ & Hbad & _).
        rewrite Hrun, (Hbad e Hrs Hd). exact Hok.
    + destruct (bot_audio_track_spec.enqueue_audio_returns a w)
        as (w' & Hrun & _ & _ & _ & Hended & _).
      rewrite Hrun, (Hended Hrs). exact Hok.
  - exact fifo_ok_new.
  - destruct (readyState (obj w)) eqn:Hrs.
    + rewrite (recv_ok now w Hrs Hok). cbn.
      apply fifo_ok_left_over. exact Hok.
    + rewrite bot_audio_track_spec.recv_ended by exact Hrs. exact Hok.
  - unfold stop, bind, get, put, ret.
    destruct (is_live (readyState (obj w))); exact Hok.
Qed.

Lemma do_ops_fifo_ok ops (w : World BotAudioTrack) :
  fifo_ok (audio_fifo (obj w)) -> fifo_ok (audio_fifo (obj (do_ops ops w))).
Proof.
  revert w. induction ops as [| o ops IH]; intros w Hok; [exact Hok |].
  cbn [do_ops fold_left]. apply IH, do_op_fifo_ok, Hok.
Qed.

Lemma born_fifo_ok ops : fifo_ok (audio_fifo (obj (do_ops ops born))).
Proof. apply do_ops_fifo_ok. exact fifo_ok_new. Qed.

(** *** Properties *)

(** X1 - Valid audio is always committed whole: on a live track, in any
    state it can reach from [__init__], [enqueue_audio] of a payload that
    decodes into a frame returns, logs nothing and leaves the queue longer
    by exactly the samples of that frame, after what was queued. *)
Theorem enqueue_audio_appends_valid_audio (ops : list Op) (a : object)
  (fr : av.AudioFrame) :
  readyState (obj (do_ops ops born)) = live ->
  decode_frame a = Ok fr ->
  exists w',
    enqueue_audio a (do_ops ops born) = Returned tt w'
    /\ av.queue (audio_fifo (obj w'))
       = av.queue (audio_fifo (obj (do_ops ops born))) ++ av.plane fr
    /\ log w' = log (do_ops ops born).
Proof.
  intros Hlive Hd.
  rewrite (enqueue_audio_ok a (do_ops ops born) Hlive (born_fifo_ok ops) Hd).
  eexists. split; [reflexivity |]. split; [| reflexivity].
  cbn [obj audio_fifo set_audio_fifo]. unfold written.
  destruct (av.samples fr =? 0) eqn:Hz; [| reflexivity].
  destruct (decode_frame_attrs a Hd) as (_ & _ & _ & _ & Hn).
  apply Nat.eqb_eq in Hz. rewrite Hz in Hn.
  destruct (av.plane fr); [| discriminate].
  rewrite app_nil_r. reflexivity.
Qed.

Lemma enqueue_audio_appends_valid_audio_witness :
  readyState (obj (do_ops load_ops born)) = live
  /\ decode_frame examples.two_samples = Ok examples.two_samples_frame
  /\ exists w',
       enqueue_audio examples.two_samples (do_ops load_ops born)
       = Returned tt w'
       /\ av.queue (audio_fifo (obj w'))
          = av.queue (audio_fifo (obj (do_ops load_ops born)))
              ++ av.plane examples.two_samples_frame
       /\ log w' = log (do_ops load_ops born).
Proof.
  split; [vm_compute; reflexivity |]. split; [reflexivity |].
  apply (enqueue_audio_appends_valid_audio load_ops examples.two_samples);
    vm_compute; reflexivity.
Defined.

(** X2 - A frame is whole or silent: on a live track, in any state it can
    reach from [__init__], [recv] returns a frame of exactly
    [frame_samples] samples, mono, at the track's rate and time base,
    stamped with the track's timestamp.  When at least [frame_samples]
    samples are queued the frame holds the first [frame_samples] of them,
    in order, and they leave the queue; when fewer are queued the frame is
    all zeros and the queued samples stay where they are: queued audio is
    never mixed with padding. *)
Theorem recv_whole_frame_or_silence (ops : list Op) (now : Time) :
  readyState (obj (do_ops ops born)) = live ->
  exists frame w',
    recv av.AudioFifo_read now (do_ops ops born) = Returned frame w'
    /\ av.samples frame = frame_samples
    /\ length (av.plane frame) = frame_samples
    /\ av.layout frame = av.mono
    /\ av.sample_rate frame = sample_rate
    /\ av.time_base frame = Some track_time_base
    /\ av.pts frame = Some (_timestamp (obj w'))
    /\ ((frame_samples
         <= length (av.queue (audio_fifo (obj (do_ops ops born))))
         /\ av.plane frame
            = firstn frame_samples
                (av.queue (audio_fifo (obj (do_ops ops born))))
         /\ av.queue (audio_fifo (obj w'))
            = skipn frame_samples
                (av.queue (audio_fifo (obj (do_ops ops born)))))
        \/ (length (av.queue (audio_fifo (obj (do_ops ops born))))
            < frame_samples
            /\ av.plane frame = repeat 0%Z frame_samples
            /\ audio_fifo (obj w') = audio_fifo (obj (do_ops ops born)))).
Proof.
  intros Hlive.
  rewrite (recv_ok now (do_ops ops born) Hlive (born_fifo_ok ops)).
  eexists _, _. split; [reflexivity |].
  unfold taken, left_over.
  destruct (frame_samples
            <=? length (av.queue (audio_fifo (obj (do_ops ops born)))))
    eqn:Hle.
  - apply Nat.leb_le in Hle.
    repeat split; try reflexivity.
    + change (length (firstn frame_samples
                        (av.queue (audio_fifo (obj (do_ops ops born)))))
              = frame_samples).
      apply firstn_length_le. exact Hle.
    + left. repeat split. exact Hle.
  - apply Nat.leb_gt in Hle.
    repeat split; try reflexivity.
    right. repeat split. exact Hle.
Qed.

Lemma recv_whole_frame_or_silence_witness :
  readyState (obj (do_ops load_ops born)) = live
  /\ exists frame w',
       recv av.AudioFifo_read examples.t0 (do_ops load_ops born)
       = Returned frame w'
       /\ av.samples frame = frame_samples
       /\ length (av.plane frame) = frame_samples
       /\ av.layout frame = av.mono
       /\ av.sample_rate frame = sample_rate
       /\ av.time_base frame = Some track_time_base
       /\ av.pts frame = Some (_timestamp (obj w'))
       /\ ((frame_samples
            <= length (av.queue (audio_fifo (obj (do_ops load_ops born))))
            /\ av.plane frame
               = firstn frame_samples
                   (av.queue (audio_fifo (obj (do_ops load_ops born))))
            /\ av.queue (audio_fifo (obj w'))
               = skipn frame_samples
                   (av.queue (audio_fifo (obj (do_ops load_ops born)))))
           \/ (length (av.queue (audio_fifo (obj (do_ops load_ops born))))
               < frame_samples
               /\ av.plane frame = repeat 0%Z frame_samples
               /\ audio_fifo (obj w')
                  = audio_fifo (obj (do_ops load_ops born)))).
Proof.
  split; [vm_compute; reflexivity |].
  apply (recv_whole_frame_or_silence load_ops examples.t0).
  vm_compute. reflexivity.
Defined.

(** The queue of the example holds 488 samples: the data branch is the
    one taken there. *)
Example load_ops_queue :
  length (av.queue (audio_fifo (obj (do_ops load_ops born)))) = 488
  /\ firstn 4 (av.queue (audio_fifo (obj (do_ops load_ops born))))
     = [1; 2; 1; 512]%Z.
Proof. split; vm_compute; reflexivity. Qed.

(** A call on an ended track changes nothing but, for a flush, the
    FIFO. *)
Lemma do_op_ended o (w : World BotAudioTrack) :
  readyState (obj w) = ended ->
  do_op o w = w
  \/ do_op o w
     = {| obj := set_audio_fifo (obj w) av.AudioFifo_new; log := log w |}.
Proof.
  intros Hrs. destruct o as [a | | now |]; cbn [do_op].
  - left.
    destruct (bot_audio_track_spec.enqueue_audio_returns a w)
      as (w' & Hrun & _ & _ & _ & Hended & _).
    rewrite Hrun. exact (Hended Hrs).
  - right. reflexivity.
  - left. rewrite bot_audio_track_spec.recv_ended by exact Hrs. reflexivity.
  - left. unfold stop, bind, get, ret. rewrite Hrs. reflexivity.
Qed.

Lemma do_ops_ended ops (w : World BotAudioTrack) :
  readyState (obj w) = ended ->
  readyState (obj (do_ops ops w)) = ended
  /\ _start (obj (do_ops ops w)) = _start (obj w)
  /\ _timestamp (obj (do_ops ops w)) = _timestamp (obj w)
  /\ log (do_ops ops w) = log w
  /\ (audio_fifo (obj (do_ops ops w)) = audio_fifo (obj w)
      \/ audio_fifo (obj (do_ops ops w)) = av.AudioFifo_new).
Proof.
  revert w. induction ops as [| o ops IH]; intros w Hrs.
  - cbn. auto 6.
  - cbn [do_ops fold_left].
    destruct (do_op_ended o w Hrs) as [-> | ->]; [apply IH, Hrs |].
    destruct (IH {| obj := set_audio_fifo (obj w) av.AudioFifo_new;
                    log := log w |} Hrs)
      as (H1 & H2 & H3 & H4 & H5).
    repeat split; try assumption.
    right. destruct H5 as [H5 | H5]; exact H5.
Qed.

(** X3 - [stop] is final: after [stop] the track is ended, and whatever
    calls follow - writes, flushes, reads, more stops - it stays ended,
    its clock and the log do not move, its FIFO is the one it had or an
    empty one (after a flush), every [recv] raises [MediaStreamError] and
    every [enqueue_audio] returns without effect. *)
Theorem stop_is_final (w : World BotAudioTrack) (ops : list Op) :
  readyState (obj (do_ops ops (do_op op_stop w))) = ended
  /\ _start (obj (do_ops ops (do_op op_stop w))) = _start (obj w)
  /\ _timestamp (obj (do_ops ops (do_op op_stop w))) = _timestamp (obj w)
  /\ log (do_ops ops (do_op op_stop w)) = log w
  /\ (audio_fifo (obj (do_ops ops (do_op op_stop w))) = audio_fifo (obj w)
      \/ audio_fifo (obj (do_ops ops (do_op op_stop w))) = av.AudioFifo_new)
  /\ (forall fifo_read now,
        recv fifo_read now (do_ops ops (do_op op_stop w))
        = Raised MediaStreamError (do_ops ops (do_op op_stop w)))
  /\ (forall a,
        enqueue_audio a (do_ops ops (do_op op_stop w))
        = Returned tt (do_ops ops (do_op op_stop w))).
Proof.
  assert (Hstop : readyState (obj (do_op op_stop w)) = ended
                  /\ _start (obj (do_op op_stop w)) = _start (obj w)
                  /\ _timestamp (obj (do_op op_stop w)) = _timestamp (obj w)
                  /\ log (do_op op_stop w) = log w
                  /\ audio_fifo (obj (do_op op_stop w))
                     = audio_fifo (obj w)).
  { cbn [do_op]. unfold stop, bind, get, put, ret.
    destruct (readyState (obj w)) eqn:Hrs; cbn; rewrite ?Hrs; auto 6. }
  destruct Hstop as (Hrs & Hs & Ht & Hl & Hf).
  destruct (do_ops_ended ops (do_op op_stop w) Hrs)
    as (H1 & H2 & H3 & H4 & H5).
  rewrite Hs in H2. rewrite Ht in H3. rewrite Hl in H4. rewrite Hf in H5.
  repeat split; try assumption.
  - intros fifo_read now.
    apply bot_audio_track_spec.recv_ended. exact H1.
  - intros a.
    destruct (bot_audio_track_spec.enqueue_audio_returns a
                (do_ops ops (do_op op_stop w)))
      as (w' & Hrun & _ & _ & _ & Hended & _).
    rewrite Hrun, (Hended H1). reflexivity.
Qed.

End bot_audio_track_life_spec.

(** ** The dispatcher over every message *)

Module open_ai_life_spec.
Import py open_ai open_ai_life.
Local Open Scope py_scope.
Local Open Scope string_scope.

Lemma session_kept_refl self : session_kept self self.
Proof. repeat split. Qed.

Lemma dict_get_In {V} (d : Dict V) key v :
  dict_get d key = Some v -> In (key, v) d.
Proof.
  induction d as [| [k x] d IH]; cbn; [discriminate |].
  destruct (String.eqb k key) eqn:E.
  - apply String.eqb_eq in E. intros H. injection H as ->.
    left. subst. reflexivity.
  - intros H. right. apply IH, H.
Qed.

(** The audio-delta handler: it returns; the session is kept; the bot is
    as before when the track has ended. *)
Lemma _handle_audio_delta_returns items (w : World OpenBot) :
  exists w',
    _handle_audio_delta items w = Returned tt w'
    /\ session_kept (obj w) (obj w')
    /\ (bot_audio_track.readyState (audio_track (obj w))
        = bot_audio_track.ended -> w' = w).
Proof.
  unfold _handle_audio_delta.
  destruct (truthy (get_or_None items "delta")).
  - unfold on_track, zoom.
    destruct (bot_audio_track_spec.enqueue_audio_returns
                (get_or_None items "delta")
                {| obj := audio_track (obj w); log := log w |})
      as (w1 & Hrun & Hrs & Hst & Hts & Hended & _).
    rewrite Hrun. eexists. split; [reflexivity |].
    cbn [obj log] in *. split.
    + repeat split; cbn; assumption.
    + intros He. rewrite (Hended He). cbn [obj log].
      destruct w as [[c n t] l]. reflexivity.
  - exists w. split; [reflexivity |]. split; [apply session_kept_refl |].
    reflexivity.
Qed.

(** Every entry of the table: its handler returns and keeps the session;
    unless its key is one of the three that reach the track, the bot is as
    before; on an ended track the bot is as before or flushed. *)
Lemma handlers_entry k h :
  In (k, h) handlers ->
  forall items (w : World OpenBot),
  exists w',
    h items w = Returned tt w'
    /\ session_kept (obj w) (obj w')
    /\ (obj w' = obj w \/ reaches_track k)
    /\ (bot_audio_track.readyState (audio_track (obj w))
        = bot_audio_track.ended ->
        obj w' = obj w \/ obj w' = flushed (obj w)).
Proof.
  intros Hin items w. unfold handlers in Hin. cbn [In] in Hin.
  repeat (destruct Hin as [Hin | Hin];
          [injection Hin as <- <- | ]);
    try contradiction;
    try (eexists; split; [reflexivity |];
         split; [apply session_kept_refl |];
         split; [left; reflexivity | intros _; left; reflexivity]).
  - destruct (_handle_audio_delta_returns items w)
      as (w' & Hrun & Hkept & Hended).
    exists w'. split; [exact Hrun |]. split; [exact Hkept |].
    split; [right; right; left; reflexivity |].
    intros He. left. rewrite (Hended He). reflexivity.
  - eexists. split; [reflexivity |].
    split; [repeat split |].
    split; [right; left; reflexivity | intros _; right; reflexivity].
  - destruct (_handle_audio_delta_returns items w)
      as (w' & Hrun & Hkept & Hended).
    exists w'. split; [exact Hrun |]. split; [exact Hkept |].
    split; [right; right; right; reflexivity |].
    intros He. left. rewrite (Hended He). reflexivity.
Qed.

(** One message, whatever it is. *)
Lemma _handle_message_cases message (w : World OpenBot) :
  exists w',
    _handle_message message w = Returned tt w'
    /\ session_kept (obj w) (obj w')
    /\ (obj w' = obj w
        \/ exists items t,
             message = Ok (PyDict items)
             /\ dict_get items "type" = Some (PyStr t)
             /\ reaches_track t)
    /\ (bot_audio_track.readyState (audio_track (obj w))
        = bot_audio_track.ended ->
        obj w' = obj w \/ obj w' = flushed (obj w)).
Proof.
  assert (Hlog : forall w' : World OpenBot,
             obj w' = obj w ->
             session_kept (obj w) (obj w')
             /\ (obj w' = obj w
                 \/ exists items t,
                      message = Ok (PyDict items)
                      /\ dict_get items "type" = Some (PyStr t)
                      /\ reaches_track t)
             /\ (bot_audio_track.readyState (audio_track (obj w))
                 = bot_audio_track.ended ->
                 obj w' = obj w \/ obj w' = flushed (obj w))).
  { intros w' ->. split; [apply session_kept_refl |]. auto. }
  unfold _handle_message, try_except, bind, lift.
  destruct message as [j | e].
  - destruct j as [| b | n | s | l | items];
      try (eexists; split; [reflexivity | apply Hlog; reflexivity]).
    cbn [get_type].
    destruct (dict_get items "type") as [t |] eqn:Ht;
      [| eexists; split; [reflexivity | apply Hlog; reflexivity]].
    destruct t as [| b | n | s | l | d];
      try (eexists; split; [reflexivity | apply Hlog; reflexivity]).
    cbn [handlers_get logger].
    destruct (dict_get handlers s) as [h |] eqn:Hh;
      [| eexists; split; [reflexivity | apply Hlog; reflexivity]].
    destruct (@handlers_entry s h (@dict_get_In _ handlers s h Hh) items
                {| obj := obj w; log := (log w ++ [debug_record])%list |})
      as (w' & Hrun & Hkept & Hsame & Hended).
    unfold debug_record in Hrun. cbn [items_of]. rewrite Hrun.
    exists w'. split; [reflexivity |]. cbn [obj] in *.
    split; [exact Hkept |]. split; [| exact Hended].
    destruct Hsame as [Hsame | Hreach]; [left; exact Hsame |].
    right. exists items, s. auto.
  - destruct e;
      (eexists; split; [reflexivity | apply Hlog; reflexivity]).
Qed.

Lemma flushed_facts self :
  flushed (flushed self) = flushed self
  /\ bot_audio_track.readyState (audio_track (flushed self))
     = bot_audio_track.readyState (audio_track self).
Proof. split; reflexivity. Qed.

(** Many messages on a bot whose track has ended. *)
Lemma handle_all_ended messages (w : World OpenBot) :
  bot_audio_track.readyState (audio_track (obj w)) = bot_audio_track.ended ->
  obj (handle_all messages w) = obj w
  \/ obj (handle_all messages w) = flushed (obj w).
Proof.
  revert w. induction messages as [| m ms IH]; intros w He; [left; reflexivity |].
  cbn [handle_all fold_left].
  destruct (_handle_message_cases m w) as (w1 & Hrun & _ & _ & Hended).
  rewrite Hrun. cbn [bot_audio_track_life.world_of].
  fold (handle_all ms w1).
  destruct (Hended He) as [H1 | H1].
  - destruct (IH w1) as [H2 | H2]; [rewrite H1; exact He | |];
      rewrite H2, H1; auto.
  - destruct (IH w1) as [H2 | H2]; [rewrite H1; exact He | |];
      rewrite H2, H1; auto.
Qed.

(** *** Properties *)

(** X4 - No message is fatal: for every message - undecodable text, a JSON
    value that is not an object, a type that is missing, unknown, not a
    string or unhashable, or one of the known types with any payload -
    [_handle_message] returns; and it leaves the connection, the outbound
    counter and the state and clock of the track as they are. *)
Theorem _handle_message_never_raises (message : PyResult object)
  (w : World OpenBot) :
  exists w',
    _handle_message message w = Returned tt w'
    /\ session_kept (obj w) (obj w').
Proof.
  destruct (_handle_message_cases message w) as (w' & Hrun & Hkept & _).
  exists w'. split; assumption.
Qed.

(** X5 - Only three discriminators reach the track: a message leaves the
    bot exactly as it was (it can only add to the log) unless it is a JSON
    object whose type is the string
    [input_audio_buffer.speech_started], [response.audio.delta] or
    [input_audio_buffer.speech_stopped]. *)
Theorem only_three_types_reach_the_track (message : PyResult object)
  (w : World OpenBot) :
  obj (bot_audio_track_life.world_of (_handle_message message w)) = obj w
  \/ exists items t,
       message = Ok (PyDict items)
       /\ dict_get items "type" = Some (PyStr t)
       /\ reaches_track t.
Proof.
  destruct (_handle_message_cases message w) as (w' & Hrun & _ & H & _).
  rewrite Hrun. exact H.
Qed.

(** X6 - A delta envelope without audio is ignored: when the ["delta"]
    field of an audio-delta envelope is missing, or is [None], the empty
    string or another falsy value, nothing is written and nothing is
    reported: the bot is unchanged and only the debug record is
    logged. *)
Theorem audio_delta_without_audio_is_ignored (items : Dict object)
  (w : World OpenBot) :
  dict_get items "type" = Some (PyStr ResponseMessageTypes.responseAudioDelta) ->
  truthy (get_or_None items "delta") = false ->
  _handle_message (Ok (PyDict items)) w
  = Returned tt {| obj := obj w; log := (log w ++ [debug_record])%list |}.
Proof.
  intros Ht Hd.
  apply open_ai_spec._handle_message_dispatch
    with (t := ResponseMessageTypes.responseAudioDelta)
         (handler := _handle_audio_delta);
    [exact Ht | reflexivity |].
  unfold _handle_audio_delta. rewrite Hd. reflexivity.
Qed.

Lemma audio_delta_without_audio_is_ignored_witness :
  dict_get delta_without_audio "type"
  = Some (PyStr ResponseMessageTypes.responseAudioDelta)
  /\ truthy (get_or_None delta_without_audio "delta") = false
  /\ _handle_message (Ok (PyDict delta_without_audio)) examples.playing_bot
     = Returned tt
         {| obj := obj examples.playing_bot;
            log := (log examples.playing_bot ++ [debug_record])%list |}.
Proof.
  split; [reflexivity |]. split; [reflexivity |].
  apply (@audio_delta_without_audio_is_ignored delta_without_audio
           examples.playing_bot); reflexivity.
Defined.


(** X8 - After [close] no audio is accepted: [close] ends the track and
    changes nothing else of the bot; whatever messages arrive afterwards,
    the bot is the closed one, or the closed one with an empty FIFO (after
    a speech-started flush): audio deltas are dropped. *)
Theorem close_then_messages (w : World OpenBot)
  (messages : list (PyResult object)) :
  exists closed,
    close w = Returned tt closed
    /\ bot_audio_track.readyState (audio_track (obj closed))
       = bot_audio_track.ended
    /\ ws_connected (obj closed) = ws_connected (obj w)
    /\ chunk_number (obj closed) = chunk_number (obj w)
    /\ bot_audio_track.audio_fifo (audio_track (obj closed))
       = bot_audio_track.audio_fifo (audio_track (obj w))
    /\ log closed = log w
    /\ (obj (handle_all messages closed) = obj closed
        \/ obj (handle_all messages closed) = flushed (obj closed)).
Proof.
  unfold close, on_track, zoom, bot_audio_track.stop, bind, get, put, ret.
  cbn [obj log].
  destruct (bot_audio_track.readyState (audio_track (obj w))) eqn:Hrs;
    cbn [bot_audio_track.is_live obj log];
    (eexists; split; [reflexivity |]);
    (repeat split; [cbn; assumption || reflexivity .. |]);
    apply handle_all_ended; cbn; assumption || reflexivity.
Qed.

End open_ai_life_spec.

(** ** The outbound side *)

Module open_ai_outbound_spec.
Import py base64_encode open_ai_outbound.
Local Open Scope py_scope.
Local Open Scope string_scope.

(** *** [str] and the event ids *)

Lemma str_inj n m : str n = str m -> n = m.
Proof.
  unfold str. intros H.
  apply DecimalZ.to_int_inj.
  assert (Hs : Some (Z.to_int n) = Some (Z.to_int m)).
  { rewrite <- (DecimalString.NilEmpty.isi (Z.to_int n)),
            <- (DecimalString.NilEmpty.isi (Z.to_int m)), H.
    reflexivity. }
  injection Hs as Hs. exact Hs.
Qed.

Lemma append_inj_r (p a b : string) : p ++ a = p ++ b -> a = b.
Proof.
  induction p as [| c p IH]; cbn; intros H; [exact H |].
  injection H as H. apply IH, H.
Qed.

Lemma audio_envelope_id_inj self n m a b :
  event_id_of (audio_envelope self n a) = event_id_of (audio_envelope self m b)
  -> n = m.
Proof.
  cbn [event_id_of audio_envelope]. intros H.
  apply (append_inj_r "audio_chunk_") in H.
  apply (append_inj_r (bot_id self)) in H.
  apply str_inj, H.
Qed.

Lemma audio_envelopes_app self n xs ys :
  audio_envelopes self n (xs ++ ys)
  = (audio_envelopes self n xs
     ++ audio_envelopes self (n + Z.of_nat (length xs)) ys)%list.
Proof.
  revert n. induction xs as [| x xs IH]; intros n; cbn [app audio_envelopes length].
  - rewrite Z.add_0_r. reflexivity.
  - rewrite IH. cbn [app]. do 3 f_equal. lia.
Qed.

Lemma audio_envelopes_ids self n chunks i :
  In i (map event_id_of (audio_envelopes self n chunks)) ->
  exists k, (n <= k)%Z
            /\ i = "audio_chunk_" ++ bot_id self ++ str k.
Proof.
  revert n. induction chunks as [| b rest IH]; intros n; cbn; [contradiction |].
  intros [<- | Hin].
  - exists n. split; [lia | reflexivity].
  - destruct (IH _ Hin) as (k & Hk & ->). exists k. split; [lia | reflexivity].
Qed.

Lemma audio_envelopes_NoDup self n chunks :
  NoDup (map event_id_of (audio_envelopes self n chunks)).
Proof.
  revert n. induction chunks as [| b rest IH]; intros n; cbn; constructor.
  - intros Hin. destruct (audio_envelopes_ids _ _ _ _ Hin) as (k & Hk & Heq).
    apply (append_inj_r "audio_chunk_") in Heq.
    apply (append_inj_r (bot_id self)) in Heq.
    apply str_inj in Heq. lia.
  - apply IH.
Qed.

Lemma audio_envelopes_same_id self self' n chunks :
  bot_id self = bot_id self' ->
  audio_envelopes self n chunks = audio_envelopes self' n chunks.
Proof.
  intros Hid. revert n. induction chunks as [| b rest IH]; intros n; cbn;
    [reflexivity |].
  rewrite IH. unfold audio_envelope. rewrite Hid. reflexivity.
Qed.

(** *** One call *)

Lemma send_audio_chunks_open audio_bytes (w : World OpenBot) conn :
  __ws (obj w) = Some conn ->
  ws_closed conn = false ->
  send_audio_chunks audio_bytes w
  = Returned tt
      {| obj := {| bot_id := bot_id (obj w);
                   __ws := Some {| ws_closed := false;
                                   ws_sent :=
                                     (ws_sent conn
                                      ++ [audio_envelope (obj w)
                                            (__chunk_number (obj w))
                                            audio_bytes])%list |};
                   __chunk_number := (__chunk_number (obj w) + 1)%Z |};
         log := log w |}.
Proof.
  destruct w as [[id c n] l]. cbn [obj log __ws]. intros -> Hopen.
  destruct conn as [closed sent]. cbn in Hopen. subst closed.
  reflexivity.
Qed.

Lemma send_audio_chunks_blocked audio_bytes (w : World OpenBot) :
  can_send (obj w) = false ->
  exists e,
    send_audio_chunks audio_bytes w
    = Returned tt {| obj := obj w; log := (log w ++ [send_error e])%list |}.
Proof.
  destruct w as [[id c n] l]. unfold can_send. cbn [obj log __ws].
  destruct c as [[closed sent] |]; cbn.
  - destruct closed; [| discriminate]. intros _.
    exists ConnectionClosed. reflexivity.
  - intros _. exists Exception_. reflexivity.
Qed.

(** The three ways [connect] ends. *)
Lemma connect_cases opened (w : World OpenBot) :
  connect opened w =
  match opened with
  | Raise e =>
      Raised e
        {| obj := obj w;
           log := (log w
                   ++ [ {| levelname := ERROR;
                           msg := "Error connecting to WebSocket: ";
                           exc_info := Some e |} ])%list |}
  | Ok true =>
      Raised ConnectionClosed
        {| obj := set_ws (obj w)
                    (Some {| ws_closed := true; ws_sent := [] |});
           log := ((log w
                    ++ [ {| levelname := ERROR;
                            msg := "Error sending initial message: ";
                            exc_info := Some ConnectionClosed |} ])
                   ++ [ {| levelname := ERROR;
                           msg := "Error connecting to WebSocket: ";
                           exc_info := Some ConnectionClosed |} ])%list |}
  | Ok false =>
      Returned tt
        {| obj := set_ws (obj w)
                    (Some {| ws_closed := false;
                             ws_sent :=
                               [session_update
                                  ("session_create_" ++ bot_id (obj w))] |});
           log := (log w
                   ++ [ {| levelname := INFO;
                           msg := "Initial message sent, Context Set";
                           exc_info := None |} ])%list |}
  end.
Proof.
  destruct w as [[id c n] l].
  destruct opened as [[|] | e]; reflexivity.
Qed.

Lemma after_event_ok uuid e (w : World OpenBot) :
  outbound_ok uuid (obj w) -> outbound_ok uuid (obj (after_event e w)).
Proof.
  intros [Hid Hws]. destruct e as [opened | b |]; cbn [after_event].
  - rewrite connect_cases.
    destruct opened as [[|] | e];
      cbn [bot_audio_track_life.world_of obj];
      [| | split; assumption].
    + split; [exact Hid |]. cbn. left. auto.
    + split; [exact Hid |]. cbn. right.
      exists (__chunk_number (obj w)), []. cbn. rewrite Hid.
      split; [reflexivity | lia].
  - destruct (can_send (obj w)) eqn:Hcan.
    + unfold can_send in Hcan.
      destruct (__ws (obj w)) as [conn |] eqn:Hconn; [| discriminate].
      apply negb_true_iff in Hcan.
      rewrite (send_audio_chunks_open b w Hconn Hcan).
      cbn [bot_audio_track_life.world_of obj]. split; [exact Hid |].
      cbn [__ws]. right.
      destruct Hws as [[_ Hclosed] | (n & chunks & Hsent & Hn)];
        [congruence |].
      exists n, (chunks ++ [b])%list.
      rewrite Hsent, audio_envelopes_app, length_app.
      cbn [audio_envelopes length app __chunk_number ws_sent].
      split; [| lia].
      match goal with
      | |- _ = _ :: (audio_envelopes ?s _ _ ++ _)%list =>
          rewrite (@audio_envelopes_same_id s (obj w) n chunks eq_refl)
      end.
      rewrite Hn. reflexivity.
    + destruct (send_audio_chunks_blocked b w Hcan) as (e & ->).
      split; assumption.
  - cbn [obj]. unfold dropped.
    destruct (__ws (obj w)) as [conn |] eqn:Hconn; [| split; [exact Hid |]].
    + split; [exact Hid |].
      cbn [set_ws __ws ws_sent ws_closed __chunk_number].
      destruct Hws as [[Hsent _] | (n & chunks & Hsent & Hn)].
      * left. auto.
      * right. exists n, chunks. split; [| exact Hn].
        rewrite Hsent. f_equal.
        apply audio_envelopes_same_id. reflexivity.
    + rewrite Hconn. exact I.
Qed.

(** *** Properties *)

(** X9 - [send_audio_chunks] never raises.  With an open connection it
    gives the connection exactly one envelope, the base64 of the bytes
    under the event id ["audio_chunk_" + bot_id + str(chunk_number)], and
    adds one to the counter, logging nothing.  Without a connection, or
    with a closed one, it sends nothing, leaves the bot and its counter as
    they are, and logs the error. *)
Theorem send_audio_chunks_never_raises (audio_bytes : list byte)
  (w : World OpenBot) :
  exists w',
    send_audio_chunks audio_bytes w = Returned tt w'
    /\ bot_id (obj w') = bot_id (obj w)
    /\ if can_send (obj w)
       then outbox (obj w')
            = (outbox (obj w)
               ++ [audio_envelope (obj w) (__chunk_number (obj w))
                     audio_bytes])%list
            /\ __chunk_number (obj w') = (__chunk_number (obj w) + 1)%Z
            /\ can_send (obj w') = true
            /\ log w' = log w
       else obj w' = obj w
            /\ exists e, log w' = (log w ++ [send_error e])%list.
Proof.
  destruct (can_send (obj w)) eqn:Hcan.
  - unfold can_send in Hcan.
    destruct (__ws (obj w)) as [conn |] eqn:Hconn; [| discriminate].
    apply negb_true_iff in Hcan.
    rewrite (send_audio_chunks_open audio_bytes w Hconn Hcan).
    eexists. split; [reflexivity |]. split; [reflexivity |].
    unfold outbox. rewrite Hconn. repeat split.
  - destruct (send_audio_chunks_blocked audio_bytes w Hcan) as (e & ->).
    eexists. split; [reflexivity |]. split; [reflexivity |].
    split; [reflexivity |]. exists e. reflexivity.
Qed.

(** X10 - Chunks go out in order under distinct ids: on an open
    connection, a run of [send_audio_chunks] calls gives the connection
    one envelope per call, in call order, numbered consecutively from the
    counter; the counter grows by the number of calls, nothing is logged,
    and the event ids of those envelopes are pairwise different. *)
Theorem send_audio_chunks_in_order (chunks : list (list byte))
  (w : World OpenBot) :
  can_send (obj w) = true ->
  outbox (obj (after_events (map ev_send_audio_chunks chunks) w))
  = (outbox (obj w)
     ++ audio_envelopes (obj w) (__chunk_number (obj w)) chunks)%list
  /\ __chunk_number (obj (after_events (map ev_send_audio_chunks chunks) w))
     = (__chunk_number (obj w) + Z.of_nat (length chunks))%Z
  /\ log (after_events (map ev_send_audio_chunks chunks) w) = log w
  /\ NoDup (map event_id_of
              (audio_envelopes (obj w) (__chunk_number (obj w)) chunks)).
Proof.
  intros Hcan.
  assert (Hrun :
    outbox (obj (after_events (map ev_send_audio_chunks chunks) w))
    = (outbox (obj w)
       ++ audio_envelopes (obj w) (__chunk_number (obj w)) chunks)%list
    /\ __chunk_number (obj (after_events (map ev_send_audio_chunks chunks) w))
       = (__chunk_number (obj w) + Z.of_nat (length chunks))%Z
    /\ log (after_events (map ev_send_audio_chunks chunks) w) = log w).
  { revert w Hcan. induction chunks as [| b rest IH]; intros w Hcan.
    - cbn. rewrite app_nil_r, Z.add_0_r. auto.
    - cbn [map after_events fold_left after_event].
      unfold can_send in Hcan.
      destruct (__ws (obj w)) as [conn |] eqn:Hconn; [| discriminate].
      apply negb_true_iff in Hcan.
      rewrite (send_audio_chunks_open b w Hconn Hcan).
      cbn [bot_audio_track_life.world_of].
      match goal with
      | |- context [fold_left _ _ ?w1] =>
          fold (after_events (map ev_send_audio_chunks rest) w1);
          destruct (IH w1 eq_refl) as (H1 & H2 & H3)
      end.
      rewrite H1, H2, H3. unfold outbox.
      cbn [obj log __ws ws_sent __chunk_number length audio_envelopes].
      rewrite Hconn.
      repeat split.
      + rewrite <- app_assoc. cbn [app]. do 2 f_equal.
        apply audio_envelopes_same_id. reflexivity.
      + lia. }
  destruct Hrun as (H1 & H2 & H3).
  repeat split; try assumption.
  apply audio_envelopes_NoDup.
Qed.

Lemma send_audio_chunks_in_order_witness :
  can_send (obj streaming_bot) = true
  /\ outbox (obj (after_events
                    (map ev_send_audio_chunks [[x01; x02]; []; [x03]])
                    streaming_bot))
     = (outbox (obj streaming_bot)
        ++ audio_envelopes (obj streaming_bot)
             (__chunk_number (obj streaming_bot))
             [[x01; x02]; []; [x03]])%list
  /\ __chunk_number
       (obj (after_events (map ev_send_audio_chunks [[x01; x02]; []; [x03]])
               streaming_bot))
     = (__chunk_number (obj streaming_bot)
        + Z.of_nat (length [[x01; x02]; []; [x03]]))%Z
  /\ log (after_events (map ev_send_audio_chunks [[x01; x02]; []; [x03]])
            streaming_bot)
     = log streaming_bot
  /\ NoDup (map event_id_of
              (audio_envelopes (obj streaming_bot)
                 (__chunk_number (obj streaming_bot))
                 [[x01; x02]; []; [x03]])).
Proof.
  split; [reflexivity |].
  apply (send_audio_chunks_in_order [[x01; x02]; []; [x03]] streaming_bot).
  reflexivity.
Defined.

(** What the example puts on the wire. *)
Example streaming_bot_outbox :
  outbox (obj (after_events
                 (map ev_send_audio_chunks [[x01; x02]; []; [x03]])
                 streaming_bot))
  = [ session_update "session_create_b0";
      input_audio_buffer_append "audio_chunk_b03" "AQI=";
      input_audio_buffer_append "audio_chunk_b04" "";
      input_audio_buffer_append "audio_chunk_b05" "Aw==" ].
Proof. reflexivity. Qed.

(** X11 - The session update comes first: whatever calls of [connect] and
    [send_audio_chunks] are made on a new bot, with connections failing to
    open or closing at any time, the current connection has been given
    either nothing - and then it is closed - or the session update
    ["session_create_" + bot_id] followed by consecutively numbered audio
    envelopes only.  Audio never goes out on a connection before its
    session update, and the bot's id never changes. *)
Theorem session_update_comes_first (uuid : string) (events : list Event) :
  bot_id (obj (after_events events {| obj := __init__ uuid; log := [] |}))
  = uuid
  /\ (outbox (obj (after_events events
                     {| obj := __init__ uuid; log := [] |})) = []
      /\ can_send (obj (after_events events
                          {| obj := __init__ uuid; log := [] |})) = false
      \/ exists n chunks,
           outbox (obj (after_events events
                          {| obj := __init__ uuid; log := [] |}))
           = session_update ("session_create_" ++ uuid)
               :: audio_envelopes
                    (obj (after_events events
                            {| obj := __init__ uuid; log := [] |}))
                    n chunks
           /\ __chunk_number
                (obj (after_events events
                        {| obj := __init__ uuid; log := [] |}))
              = (n + Z.of_nat (length chunks))%Z).
Proof.
  assert (Hok : forall w : World OpenBot,
             outbound_ok uuid (obj w) ->
             outbound_ok uuid (obj (after_events events w))).
  { induction events as [| e rest IH]; intros w Hw; [exact Hw |].
    cbn [after_events fold_left]. apply IH, after_event_ok, Hw. }
  specialize (Hok {| obj := __init__ uuid; log := [] |}).
  destruct Hok as [Hid Hws]; [split; [reflexivity | exact I] |].
  split; [exact Hid |].
  unfold outbox, can_send.
  destruct (__ws (obj (after_events events
                         {| obj := __init__ uuid; log := [] |})))
    as [conn |].
  - destruct Hws as [[Hsent Hclosed] | (n & chunks & Hsent & Hn)].
    + left. rewrite Hsent, Hclosed. auto.
    + right. exists n, chunks. auto.
  - left. auto.
Qed.

(** X12 - How [connect] ends: when the connection opens and takes the
    session update, [connect] returns and the connection's outbox is
    exactly that update.  Otherwise it raises the error it met, after
    logging it: when [websockets.connect] raised, the bot is untouched;
    when the connection opened but was already closed, the bot is left
    holding that connection, with nothing sent on it, and the error was
    logged twice (by [__send_initial_message] and by [connect]).  The
    chunk counter is never touched. *)
Theorem connect_outcomes (opened : PyResult bool) (w : World OpenBot) :
  match connect opened w with
  | Returned _ w' =>
      opened = Ok false
      /\ outbox (obj w')
         = [session_update ("session_create_" ++ bot_id (obj w))]
      /\ can_send (obj w') = true
      /\ __chunk_number (obj w') = __chunk_number (obj w)
  | Raised e w' =>
      __chunk_number (obj w') = __chunk_number (obj w)
      /\ ((opened = Raise e
           /\ obj w' = obj w
           /\ length (log w') = S (length (log w)))
          \/ (opened = Ok true
              /\ e = ConnectionClosed
              /\ __ws (obj w') = Some {| ws_closed := true; ws_sent := [] |}
              /\ length (log w') = S (S (length (log w)))))
  end.
Proof.
  rewrite connect_cases.
  destruct opened as [[|] | e].
  - split; [reflexivity |]. right. repeat split.
    cbn [log]. rewrite !length_app. cbn [length]. lia.
  - repeat split.
  - split; [reflexivity |]. left. repeat split.
    cbn [log]. rewrite length_app. cbn [length]. lia.
Qed.

End open_ai_outbound_spec.

(** ** Base64 out and back in *)

Module base64_round_trip_spec.
Import py base64 base64_encode.

Lemma In_all_bytes b : In b all_bytes.
Proof.
  unfold all_bytes. apply in_map_iff. exists (Byte.to_nat b). split.
  - rewrite Byte.of_to_nat. reflexivity.
  - apply in_seq. pose proof (Byte.to_nat_bounded b). lia.
Qed.

Lemma for_all_byte_pairs (P : byte -> byte -> bool) :
  forallb (fun a => forallb (P a) all_bytes) all_bytes = true ->
  forall a b, P a b = true.
Proof.
  intros H a b. rewrite forallb_forall in H.
  specialize (H a (In_all_bytes a)). rewrite forallb_forall in H.
  apply H, In_all_bytes.
Qed.

Lemma table_ok v :
  (v < 64)%N ->
  table_a2b_base64 (table_b2a_base64 v) = Some v
  /\ Ascii.eqb (table_b2a_base64 v) BASE64_PAD = false
  /\ (N_of_ascii (table_b2a_base64 v) <? 128)%N = true.
Proof.
  intros Hv.
  assert (Hall : forallb table_check (map N.of_nat (seq 0 64)) = true)
    by (vm_compute; reflexivity).
  rewrite forallb_forall in Hall.
  assert (Hin : In v (map N.of_nat (seq 0 64))).
  { apply in_map_iff. exists (N.to_nat v). split; [apply N2Nat.id |].
    apply in_seq. lia. }
  specialize (Hall v Hin). unfold table_check in Hall.
  apply andb_prop in Hall. destruct Hall as [Hall Hascii].
  apply andb_prop in Hall. destruct Hall as [Htab Hpad].
  destruct (table_a2b_base64 (table_b2a_base64 v)) as [v' |];
    [| discriminate].
  apply N.eqb_eq in Htab. subst v'.
  apply negb_true_iff in Hpad. auto.
Qed.

Lemma to_N_inj a b : Byte.to_N a = Byte.to_N b -> a = b.
Proof.
  intros H. apply (f_equal Byte.of_N) in H.
  rewrite !Byte.of_to_N in H. injection H as H. exact H.
Qed.

Lemma pair_ok a b :
  (sextet0 a < 64)%N /\ (sextet1 a b < 64)%N
  /\ (sextet2 a b < 64)%N /\ (sextet3 a < 64)%N
  /\ uchar (N.lor (N.shiftl (sextet0 a) 2) (N.shiftr (sextet1 a b) 4)) = a
  /\ N.land (sextet1 a b) 15 = N.shiftr (Byte.to_N b) 4
  /\ N.shiftr (sextet2 a b) 2 = N.land (Byte.to_N a) 15
  /\ uchar (N.lor (N.shiftl (N.shiftr (Byte.to_N a) 4) 4)
              (N.land (Byte.to_N a) 15)) = a
  /\ uchar (N.lor (N.shiftl (N.land (sextet2 a b) 3) 6) (sextet3 b)) = b.
Proof.
  assert (Hall : forallb (fun a => forallb (pair_check a) all_bytes)
                   all_bytes = true)
    by (vm_compute; reflexivity).
  pose proof (for_all_byte_pairs pair_check Hall a b) as H.
  unfold pair_check in H.
  repeat (apply andb_prop in H; destruct H as [H ?]).
  repeat match goal with
         | H : (_ <? _)%N = true |- _ => apply N.ltb_lt in H
         | H : (Byte.to_N _ =? Byte.to_N _)%N = true |- _ =>
             apply N.eqb_eq, to_N_inj in H
         | H : (_ =? _)%N = true |- _ => apply N.eqb_eq in H
         end.
  auto 12.
Qed.

(** One group of three bytes through the decoder. *)
Lemma a2b_loop_group a b c rest leftchar pads out :
  a2b_loop
    (String (table_b2a_base64 (sextet0 a))
       (String (table_b2a_base64 (sextet1 a b))
          (String (table_b2a_base64 (sextet2 b c))
             (String (table_b2a_base64 (sextet3 c)) rest))))
    0 leftchar pads out
  = a2b_loop rest 0 0%N 0 (out ++ [a; b; c]).
Proof.
  destruct (pair_ok a b) as (H0 & H1 & _ & _ & Ha & Hl1 & _ & _ & _).
  destruct (pair_ok b c) as (_ & _ & H2 & _ & _ & _ & Hr2 & Hb & Hc).
  destruct (pair_ok c c) as (_ & _ & _ & H3 & _).
  destruct (table_ok H0) as (T0 & P0 & _).
  destruct (table_ok H1) as (T1 & P1 & _).
  destruct (table_ok H2) as (T2 & P2 & _).
  destruct (table_ok H3) as (T3 & P3 & _).
  cbn [a2b_loop]. rewrite P0, T0.
  cbn [a2b_loop]. rewrite P1, T1.
  cbn [a2b_loop]. rewrite P2, T2.
  cbn [a2b_loop]. rewrite P3, T3.
  rewrite Ha, Hl1, Hr2, Hb, Hc.
  rewrite <- !app_assoc. reflexivity.
Qed.

(** The decoder gives back what the encoder was given. *)
Lemma a2b_loop_b64encode bs :
  forall leftchar pads out,
    a2b_loop (b64encode bs) 0 leftchar pads out = Ok (out ++ bs).
Proof.
  remember (length bs) as n eqn:Hn. revert bs Hn.
  induction n as [n IH] using lt_wf_ind. intros bs Hn leftchar pads out.
  destruct bs as [| a [| b [| c rest]]].
  - cbn. rewrite app_nil_r. reflexivity.
  - destruct (pair_ok a x00) as (H0 & H1 & _ & _ & Ha & _).
    destruct (table_ok H0) as (T0 & P0 & _).
    destruct (table_ok H1) as (T1 & P1 & _).
    cbn [b64encode a2b_loop]. rewrite P0, T0.
    cbn [a2b_loop]. rewrite P1, T1, Ha. reflexivity.
  - destruct (pair_ok a b) as (H0 & H1 & _ & _ & Ha & Hl1 & _ & _ & _).
    destruct (pair_ok b x00) as (_ & _ & H2 & _ & _ & _ & Hr2 & Hb & _).
    destruct (table_ok H0) as (T0 & P0 & _).
    destruct (table_ok H1) as (T1 & P1 & _).
    destruct (table_ok H2) as (T2 & P2 & _).
    cbn [b64encode a2b_loop]. rewrite P0, T0.
    cbn [a2b_loop]. rewrite P1, T1.
    cbn [a2b_loop]. rewrite P2, T2.
    rewrite Ha, Hl1, Hr2, Hb.
    rewrite <- !app_assoc. reflexivity.
  - cbn [b64encode]. rewrite a2b_loop_group.
    rewrite (IH (length rest)) by (subst n; cbn; lia || reflexivity).
    rewrite <- app_assoc. reflexivity.
Qed.

Lemma is_ascii_b64encode bs : is_ascii (b64encode bs) = true.
Proof.
  remember (length bs) as n eqn:Hn. revert bs Hn.
  induction n as [n IH] using lt_wf_ind. intros bs Hn.
  destruct bs as [| a [| b [| c rest]]].
  - reflexivity.
  - destruct (pair_ok a x00) as (H0 & H1 & _).
    destruct (table_ok H0) as (_ & _ & A0).
    destruct (table_ok H1) as (_ & _ & A1).
    cbn [b64encode is_ascii]. rewrite A0, A1. reflexivity.
  - destruct (pair_ok a b) as (H0 & H1 & _).
    destruct (pair_ok b x00) as (_ & _ & H2 & _).
    destruct (table_ok H0) as (_ & _ & A0).
    destruct (table_ok H1) as (_ & _ & A1).
    destruct (table_ok H2) as (_ & _ & A2).
    cbn [b64encode is_ascii]. rewrite A0, A1, A2. reflexivity.
  - destruct (pair_ok a b) as (H0 & H1 & _).
    destruct (pair_ok b c) as (_ & _ & H2 & _).
    destruct (pair_ok c c) as (_ & _ & _ & H3 & _).
    destruct (table_ok H0) as (_ & _ & A0).
    destruct (table_ok H1) as (_ & _ & A1).
    destruct (table_ok H2) as (_ & _ & A2).
    destruct (table_ok H3) as (_ & _ & A3).
    cbn [b64encode is_ascii]. rewrite A0, A1, A2, A3.
    cbn [andb]. apply (IH (length rest)); [subst n; cbn; lia | reflexivity].
Qed.

Lemma b64decode_b64encode bs : b64decode (PyStr (b64encode bs)) = Ok bs.
Proof.
  unfold b64decode, a2b_base64.
  rewrite is_ascii_b64encode, a2b_loop_b64encode. reflexivity.
Qed.

(** *** Properties *)

(** X13 - Base64 audio survives the trip: for every byte string, decoding
    what [b64encode] made of it gives the bytes back.  So the ["audio"]
    field of the envelope [send_audio_chunks] builds decodes to the
    caller's bytes; and a block of samples that [sound_device]'s callback
    hands to [send_encoded_audio] arrives at the back of the request
    queue intact, with nothing raised and nothing logged. *)
Theorem encoded_audio_round_trip (audio_bytes : list byte) :
  b64decode (PyStr (b64encode audio_bytes)) = Ok audio_bytes
  /\ (forall self n,
        match open_ai_outbound.audio_envelope self n audio_bytes with
        | open_ai_outbound.input_audio_buffer_append _ audio =>
            b64decode (PyStr audio) = Ok audio_bytes
        | open_ai_outbound.session_update _ => False
        end)
  /\ (forall w : World transciption.Queue,
        sound_device.callback transciption.send_encoded_audio audio_bytes w
        = Returned tt
            {| obj := obj w ++ [audio_bytes]; log := log w |}).
Proof.
  split; [apply b64decode_b64encode |].
  split; [intros self n; apply b64decode_b64encode |].
  intros w.
  unfold sound_device.callback, transciption.send_encoded_audio,
    try_except, bind, lift, modify.
  rewrite b64decode_b64encode. reflexivity.
Qed.

(** X14 - [send_encoded_audio] on bad input: text that is not base64, or
    an argument that is not a string, raises the decoding error to the
    caller and leaves the request queue as it is; text that decodes is
    queued behind the requests already waiting. *)
Theorem send_encoded_audio_outcomes (base64_audio_data : object)
  (w : World transciption.Queue) :
  match b64decode base64_audio_data with
  | Ok audio_bytes =>
      transciption.send_encoded_audio base64_audio_data w
      = Returned tt {| obj := obj w ++ [audio_bytes]; log := log w |}
  | Raise e =>
      transciption.send_encoded_audio base64_audio_data w = Raised e w
      /\ (e = binascii_Error \/ e = ValueError \/ e = TypeError)
  end.
Proof.
  unfold transciption.send_encoded_audio, bind, lift, modify.
  destruct (b64decode base64_audio_data) as [bs | e] eqn:Hd;
    [reflexivity |].
  split; [reflexivity |].
  unfold b64decode in Hd.
  destruct base64_audio_data as [| b | n | s | l | d];
    try (injection Hd as <-; auto).
  destruct (is_ascii s); [| injection Hd as <-; auto].
  left. unfold a2b_base64 in Hd.
  assert (Hloop : forall s q lc p out e,
             a2b_loop s q lc p out = Raise e -> e = binascii_Error).
  { clear. induction s as [| c s IH]; intros q lc p out e; cbn [a2b_loop].
    - destruct q; [discriminate | intros H; injection H as <-; reflexivity].
    - destruct (Ascii.eqb c BASE64_PAD).
      + destruct (2 <=? q); [destruct (4 <=? q + S p); [discriminate |] |];
          apply IH.
      + destruct (table_a2b_base64 c); [| apply IH].
        destruct q as [| [| [| q]]]; apply IH. }
  exact (Hloop _ _ _ _ _ _ Hd).
Qed.

End base64_round_trip_spec.

(** ** The transcription dispatcher *)

Module transcribe_dispatch_spec.
Import py transcribe transcribe_dispatch.
Local Open Scope py_scope.

(** What one [add_audio] call emits and leaves. *)
Lemma add_audio_facts self data :
  concat (fst (add_audio self data)) ++ buffer (snd (add_audio self data))
  = buffer self ++ data
  /\ Forall (fun c => length c = PREFERRED_CHUNK_SIZE)
       (fst (add_audio self data)).
Proof.
  rewrite transcribe_spec.add_audio_eq. cbn [fst snd buffer]. split.
  - apply transcribe_spec.chunk_loop_concat.
  - apply transcribe_spec.chunk_loop_sizes. constructor.
Qed.

(** One call of [send_audio_byte]. *)
Lemma send_audio_byte_step audio (w : World Transcribe) :
  send_audio_byte audio w
  = Returned tt
      {| obj :=
           {| audio_processor :=
                snd (add_audio (audio_processor (obj w)) audio);
              submitted :=
                match fst (add_audio (audio_processor (obj w)) audio) with
                | [] => submitted (obj w)
                | chunks =>
                    submitted (obj w)
                    ++ [ {| task_request := streaming_config_request;
                            task_chunks := chunks |} ]
                end;
              emitted := emitted (obj w) |};
         log := log w |}.
Proof.
  destruct w as [self l].
  unfold send_audio_byte, try_except, bind, get. cbn [obj log].
  destruct (add_audio (audio_processor self) audio) as [chunks p].
  cbn [fst snd]. destruct chunks as [| c cs]; reflexivity.
Qed.

Lemma send_all_run inputs :
  forall w : World Transcribe,
  exists w' new,
    send_all inputs w = Returned tt w'
    /\ submitted (obj w') = submitted (obj w) ++ new
    /\ concat (flat_map task_chunks new)
         ++ buffer (audio_processor (obj w'))
       = buffer (audio_processor (obj w)) ++ concat inputs
    /\ Forall task_ok new
    /\ length new <= length inputs
    /\ emitted (obj w') = emitted (obj w)
    /\ log w' = log w.
Proof.
  induction inputs as [| audio rest IH]; intros w.
  - exists w, []. cbn. rewrite !app_nil_r. repeat split; auto.
  - cbn [send_all]. unfold bind. rewrite send_audio_byte_step.
    destruct (add_audio_facts (audio_processor (obj w)) audio)
      as [Hspell Hsizes].
    match goal with
    | |- context [send_all rest ?w1] =>
        destruct (IH w1) as (w' & new & Hrun & Hsub & Hcat & Hok & Hlen
                             & Hem & Hlog)
    end.
    cbn [obj log audio_processor submitted emitted] in *.
    rewrite Hrun.
    destruct (fst (add_audio (audio_processor (obj w)) audio))
      as [| c cs] eqn:Hchunks.
    + exists w', new. split; [reflexivity |].
      split; [exact Hsub |]. split.
      * rewrite Hcat. cbn [concat app] in Hspell. rewrite Hspell.
        cbn [concat]. rewrite app_assoc. reflexivity.
      * repeat split; auto; try (cbn [length]; lia).
    + exists w',
        ({| task_request := streaming_config_request;
            task_chunks := c :: cs |} :: new).
      split; [reflexivity |].
      split; [rewrite Hsub, <- app_assoc; reflexivity |]. split.
      * cbn [flat_map task_chunks]. rewrite concat_app, <- app_assoc, Hcat.
        rewrite app_assoc, Hspell. cbn [concat].
        rewrite app_assoc. reflexivity.
      * repeat split; auto; try (cbn [length]; lia).
        constructor; [| exact Hok].
        repeat split; [discriminate | exact Hsizes].
Qed.

Lemma for_results_run rs (w : World Transcribe) :
  for_results rs w
  = Returned tt
      {| obj := {| audio_processor := audio_processor (obj w);
                   submitted := submitted (obj w);
                   emitted := emitted (obj w) ++ flat_map event_of rs |};
         log := log w |}.
Proof.
  revert w. induction rs as [| r rest IH]; intros [self l].
  - cbn. rewrite app_nil_r. destruct self. reflexivity.
  - cbn [for_results flat_map]. unfold bind, event_of.
    destruct (alternatives r) as [| top others];
      cbn [ret emit modify obj log]; rewrite IH;
      cbn [obj log audio_processor submitted emitted];
      rewrite <- ?app_assoc; reflexivity.
Qed.

Lemma for_responses_run responses (w : World Transcribe) :
  for_responses responses w
  = Returned tt {| obj := with_events (obj w) responses; log := log w |}.
Proof.
  revert w. induction responses as [| r rest IH]; intros [self l].
  - cbn. unfold with_events. cbn. rewrite app_nil_r.
    destruct self. reflexivity.
  - cbn [for_responses]. unfold bind. rewrite for_results_run, IH.
    unfold with_events.
    cbn [obj log audio_processor submitted emitted flat_map].
    rewrite flat_map_app, app_assoc. reflexivity.
Qed.

Lemma event_count rs :
  length (flat_map event_of rs) = length (filter has_alternative rs).
Proof.
  induction rs as [| r rest IH]; [reflexivity |].
  cbn [flat_map filter]. unfold event_of at 1, has_alternative at 1.
  destruct (alternatives r); cbn [app length]; rewrite IH; reflexivity.
Qed.

(** *** Properties *)

(** X15 - No audio is lost between the calls and the executor: after any
    run of [send_audio_byte] calls on a new [Transcribe], the chunks of
    the submitted tasks, task after task, followed by the bytes still in
    the accumulator, are the bytes that were fed, in order.  Every task
    carries the streaming configuration and at least one chunk, every
    chunk is [PREFERRED_CHUNK_SIZE] bytes long, there are at most as many
    tasks as calls, and the calls themselves emit and log nothing. *)
Theorem send_audio_byte_conserves_audio (inputs : list bytes) :
  exists w',
    send_all inputs {| obj := transcribe_dispatch.__init__; log := [] |}
    = Returned tt w'
    /\ concat (flat_map task_chunks (submitted (obj w')))
         ++ buffer (audio_processor (obj w'))
       = concat inputs
    /\ Forall task_ok (submitted (obj w'))
    /\ length (submitted (obj w')) <= length inputs
    /\ emitted (obj w') = []
    /\ log w' = [].
Proof.
  destruct (send_all_run inputs
              {| obj := transcribe_dispatch.__init__; log := [] |})
    as (w' & new & Hrun & Hsub & Hcat & Hok & Hlen & Hem & Hlog).
  cbn in Hsub, Hcat, Hem, Hlog.
  exists w'. rewrite Hsub. auto 7.
Qed.

(** X16 - One event per result that has an alternative: whatever the
    recognizer answers to a task, [_transcribe_response] emits, in the
    order received, exactly one ["transcription"] event for each result
    with at least one alternative and none for the others; the event has
    the transcript and confidence of the first alternative, the result's
    finality, and the remaining alternatives.  When the response stream
    ends with an error, the events of the responses received before it
    are emitted all the same, the error leaves the function, and nothing
    is logged.  The accumulator and the submitted tasks are not
    touched. *)
Theorem _transcribe_response_events
  (streaming_recognize : list Request -> list Response * option PyExc)
  (streaming_request : Request) (audio_chunk : list bytes)
  (w : World Transcribe) :
  let '(responses, failure) :=
    streaming_recognize (request_generator streaming_request audio_chunk) in
  _transcribe_response streaming_recognize streaming_request audio_chunk w
  = match failure with
    | None =>
        Returned tt {| obj := with_events (obj w) responses; log := log w |}
    | Some e =>
        Raised e {| obj := with_events (obj w) responses; log := log w |}
    end
  /\ length (emitted (with_events (obj w) responses))
     = length (emitted (obj w))
       + length (filter has_alternative (flat_map results responses)).
Proof.
  unfold _transcribe_response.
  destruct (streaming_recognize
              (request_generator streaming_request audio_chunk))
    as [responses failure].
  split.
  - unfold bind. rewrite for_responses_run.
    destruct failure; reflexivity.
  - unfold with_events. cbn [emitted].
    rewrite length_app, event_count. reflexivity.
Qed.

End transcribe_dispatch_spec.
